(** * Stock proxy: the fetch / cache / transform pipeline of [server.js]
      and of its earlier variant [server_backup.js]

    The development embeds the request handler of [GET /api/stock/:symbol],
    the symbol validation of [utils/validation], the in-memory cache
    ([node-cache] with [stdTTL: 3600]) and the usage counter of the
    earlier variant, together with the JavaScript built-ins the handler
    calls ([toUpperCase], [parseFloat], [Date] parsing and printing,
    [Array.prototype.sort], [JSON.parse]).

    Conventions.
    - Strings are sequences of ASCII characters; code points outside
      ASCII are carried along unchanged.
    - Wall-clock time is an integer number of milliseconds since the
      epoch, as [Date.now()] gives it.
    - A JavaScript number is kept as the decimal it denotes (sign,
      digits, power of ten), or [NaN], or an infinity; the rounding of
      binary64 is outside the model.
    - An [async] function is split at its [await]s into the synchronous
      pieces the event loop runs one at a time. *)

From Stdlib Require Import ZArith Ascii String List Bool Lia Sorted Permutation.
From stdpp Require Import base gmap strings list fin_maps.

Set Warnings "-register-all".

Local Open Scope string_scope.
Local Open Scope Z_scope.

(** ** Characters and text *)

Module Text.

Definition dquote : ascii := "034"%char.
Definition backslash : ascii := "092"%char.
Definition newline : ascii := "010"%char.

Definition dq : string := String dquote EmptyString.
Definition nl : string := String newline EmptyString.

Definition code (c : ascii) : Z := Z.of_nat (nat_of_ascii c).

Definition is_upper (c : ascii) : bool := (65 <=? code c) && (code c <=? 90).
Definition is_lower (c : ascii) : bool := (97 <=? code c) && (code c <=? 122).
Definition is_digit (c : ascii) : bool := (48 <=? code c) && (code c <=? 57).

Definition digit_value (c : ascii) : Z := code c - 48.

Definition upper_char (c : ascii) : ascii :=
  if is_lower c then ascii_of_nat (nat_of_ascii c - 32) else c.

(** [String.prototype.toUpperCase] on ASCII text: the letters a-z go to
    A-Z, every other character stays. *)
Fixpoint toUpperCase (s : string) : string :=
  match s with
  | EmptyString => EmptyString
  | String c r => String (upper_char c) (toUpperCase r)
  end.

(** [haystack.startsWith(needle)] *)
Fixpoint starts_with (needle haystack : string) : bool :=
  match needle, haystack with
  | EmptyString, _ => true
  | String a n, String b h => if Ascii.eqb a b then starts_with n h else false
  | String _ _, EmptyString => false
  end.

(** [haystack.includes(needle)] on strings *)
Fixpoint includes (needle haystack : string) : bool :=
  starts_with needle haystack ||
  match haystack with
  | EmptyString => false
  | String _ h => includes needle h
  end.

(** removes [needle] from the front of [s] when it is there *)
Fixpoint strip_prefix (needle s : string) : option string :=
  match needle, s with
  | EmptyString, _ => Some s
  | String a n, String b h => if Ascii.eqb a b then strip_prefix n h else None
  | String _ _, EmptyString => None
  end.

(** the longest run of decimal digits at the front, and what follows *)
Fixpoint span_digits (s : string) : string * string :=
  match s with
  | String c r =>
      if is_digit c then let '(d, t) := span_digits r in (String c d, t)
      else (EmptyString, s)
  | EmptyString => (EmptyString, EmptyString)
  end.

Fixpoint digits_value_from (acc : Z) (s : string) : Z :=
  match s with
  | EmptyString => acc
  | String c r => digits_value_from (10 * acc + digit_value c) r
  end.

Definition digits_value (s : string) : Z := digits_value_from 0 s.

Definition len (s : string) : Z := Z.of_nat (String.length s).

Fixpoint repeat_char (c : ascii) (n : nat) : string :=
  match n with
  | O => EmptyString
  | S k => String c (repeat_char c k)
  end.

Definition zeros (n : Z) : string := repeat_char "0"%char (Z.to_nat n).

Fixpoint digits_of_pos_fuel (fuel : nat) (n : Z) (acc : string) : string :=
  match fuel with
  | O => acc
  | S f =>
      let acc' := String (ascii_of_nat (Z.to_nat (48 + n mod 10))) acc in
      if n / 10 =? 0 then acc' else digits_of_pos_fuel f (n / 10) acc'
  end.

(** decimal digits of a natural number, no leading zero ("0" for 0) *)
Definition digits_of (n : Z) : string :=
  digits_of_pos_fuel (S (Z.to_nat (Z.log2 n))) n EmptyString.

(** zero-padded to [w] digits *)
Definition pad (w : Z) (n : Z) : string :=
  let d := digits_of n in zeros (w - len d) +:+ d.

Definition take (n : Z) (s : string) : string := String.substring 0 (Z.to_nat n) s.
Definition drop (n : Z) (s : string) : string :=
  String.substring (Z.to_nat n) (String.length s - Z.to_nat n) s.

End Text.

(** ** Completions: a value, or a thrown exception *)

Inductive Exn : Type :=
  | TypeError                 (* raised by the engine *)
  | SyntaxError               (* raised by [JSON.parse] *)
  | Error (message : string)  (* [new Error(message)] *).

Inductive Completion (A : Type) : Type :=
  | Normal (a : A)
  | Throw (e : Exn).

Arguments Normal {A} a.
Arguments Throw {A} e.

(** [error.message]; the text carried by an error that the engine raises
    is the engine's own, and the error's name stands for it here. *)
Definition Exn_message (e : Exn) : string :=
  match e with
  | TypeError => "TypeError"
  | SyntaxError => "SyntaxError"
  | Error message => message
  end.

Definition bind {A B : Type} (c : Completion A) (k : A -> Completion B) : Completion B :=
  match c with
  | Normal a => k a
  | Throw e => Throw e
  end.

Notation "'let!' x ':=' c 'in' k" := (bind c (fun x => k))
  (at level 10, x name, c at level 100, k at level 200).

Fixpoint mapM {A B : Type} (f : A -> Completion B) (l : list A) : Completion (list B) :=
  match l with
  | [] => Normal []
  | a :: r => let! b := f a in let! bs := mapM f r in Normal (b :: bs)
  end.

(** ** JavaScript values *)

Module JS.
Import Text.

(** A number: [Dec neg m e] stands for [(-1)^neg * m * 10^e] with [0 <= m]. *)
Inductive Num : Type :=
  | NaN
  | Infinity (neg : bool)
  | Dec (neg : bool) (m : Z) (e : Z).

Fixpoint strip_zeros (fuel : nat) (m e : Z) : Z * Z :=
  match fuel with
  | O => (m, e)
  | S f => if (m mod 10 =? 0) && negb (m =? 0) then strip_zeros f (m / 10) (e + 1) else (m, e)
  end.

(** the same number with no trailing zero in its digits *)
Definition normal (m e : Z) : Z * Z :=
  if m =? 0 then (0, 0) else strip_zeros (S (Z.to_nat (Z.log2 m))) m e.

Definition is_NaN (n : Num) : bool :=
  match n with NaN => true | _ => false end.

Definition is_finite (n : Num) : bool :=
  match n with Dec _ _ _ => true | _ => false end.

Definition is_zero (n : Num) : bool :=
  match n with Dec _ m _ => m =? 0 | _ => false end.

(** [Number::toString] in radix 10, following the case split of the
    language definition on the digit count [k] and the position [n] of
    the decimal point. *)
Definition Number_toString (x : Num) : string :=
  match x with
  | NaN => "NaN"
  | Infinity false => "Infinity"
  | Infinity true => "-Infinity"
  | Dec neg m e =>
      let '(m', e') := normal m e in
      if m' =? 0 then "0" else
      let s := digits_of m' in
      let k := len s in
      let n := k + e' in
      (if neg then "-" else "") +:+
      (if (k <=? n) && (n <=? 21) then s +:+ zeros (n - k)
       else if (0 <? n) && (n <=? 21) then take n s +:+ "." +:+ drop n s
       else if (-6 <? n) && (n <=? 0) then "0." +:+ zeros (- n) +:+ s
       else
         let ex := n - 1 in
         let es := (if ex <? 0 then "-" else "+") +:+ digits_of (Z.abs ex) in
         if k =? 1 then s +:+ "e" +:+ es
         else take 1 s +:+ "." +:+ drop 1 s +:+ "e" +:+ es)
  end.

Definition is_space (c : ascii) : bool :=
  let n := code c in ((9 <=? n) && (n <=? 13)) || (n =? 32).

Fixpoint skip_spaces (s : string) : string :=
  match s with
  | String c r => if is_space c then skip_spaces r else s
  | EmptyString => EmptyString
  end.

(** the exponent part of a decimal literal at the front of [s], 0 when
    there is none *)
Definition exponent_part (s : string) : Z :=
  match s with
  | String c r =>
      if Ascii.eqb c "e" || Ascii.eqb c "E" then
        let '(neg, r') :=
          match r with
          | String "-" t => (true, t)
          | String "+" t => (false, t)
          | _ => (false, r)
          end in
        let '(d, _) := span_digits r' in
        match d with
        | EmptyString => 0
        | _ => if neg then - digits_value d else digits_value d
        end
      else 0
  | EmptyString => 0
  end.

(** [parseFloat] on a string: leading white space is skipped, the longest
    prefix that is a decimal literal is read, [NaN] when there is none. *)
Definition parseFloat_string (s : string) : Num :=
  let t := skip_spaces s in
  let '(neg, u) :=
    match t with
    | String "-" r => (true, r)
    | String "+" r => (false, r)
    | _ => (false, t)
    end in
  if starts_with "Infinity" u then Infinity neg else
  let '(d1, r1) := span_digits u in
  let '(d2, r2) :=
    match r1 with
    | String "." r => span_digits r
    | _ => (EmptyString, r1)
    end in
  match d1 +:+ d2 with
  | EmptyString => NaN
  | ds =>
      let '(m, e) := normal (digits_value ds) (exponent_part r2 - len d2) in
      Dec neg m e
  end.

(** Values as [JSON.parse] yields them. The fields of [JObject] are the
    own properties in the order [Object.entries] enumerates them. *)
Inductive JSON : Type :=
  | JNull
  | JBool (b : bool)
  | JNumber (n : Num)
  | JString (s : string)
  | JArray (items : list JSON)
  | JObject (fields : list (string * JSON)).

(** [undefined] is [None]. *)
Definition Value : Type := option JSON.

Definition truthy (v : JSON) : bool :=
  match v with
  | JNull => false
  | JBool b => b
  | JNumber n => negb (is_NaN n) && negb (is_zero n)
  | JString s => negb (String.eqb s "")
  | JArray _ | JObject _ => true
  end.

Definition truthy_value (v : Value) : bool :=
  match v with
  | None => false
  | Some x => truthy x
  end.

(** [a || b] *)
Definition or_else (a b : Value) : Value :=
  if truthy_value a then a else b.

Fixpoint assoc {A : Type} (k : string) (l : list (string * A)) : option A :=
  match l with
  | [] => None
  | (k', v) :: r => if String.eqb k k' then Some v else assoc k r
  end.

(** [v[k]] for the property names this program reads (none of them is an
    index, [length] or another built-in property): reading from [null]
    throws, a value that is not an object has no such property. *)
Definition get (v : JSON) (k : string) : Completion Value :=
  match v with
  | JNull => Throw TypeError
  | JObject fields => Normal (assoc k fields)
  | _ => Normal None
  end.

Definition has_key {A : Type} (k : string) (l : list (string * A)) : bool :=
  match assoc k l with Some _ => true | None => false end.

(** [ToString]: an array joins its elements with commas ([null] giving
    the empty text); an object prints as [[object Object]] unless an own
    [toString] property, which after [JSON.parse] is never callable,
    hides the inherited method. *)
Fixpoint ToString (v : JSON) : Completion string :=
  match v with
  | JNull => Normal "null"
  | JBool true => Normal "true"
  | JBool false => Normal "false"
  | JNumber n => Normal (Number_toString n)
  | JString s => Normal s
  | JArray items =>
      (fix join (l : list JSON) : Completion string :=
         match l with
         | [] => Normal ""
         | x :: r =>
             let! s := match x with JNull => Normal "" | _ => ToString x end in
             match r with
             | [] => Normal s
             | _ => let! t := join r in Normal (s +:+ "," +:+ t)
             end
         end) items
  | JObject fields =>
      if has_key "toString" fields then Throw TypeError
      else Normal "[object Object]"
  end.

Definition ToString_value (v : Value) : Completion string :=
  match v with
  | None => Normal "undefined"
  | Some x => ToString x
  end.

(** [parseFloat(v)] *)
Definition parseFloat (v : Value) : Completion Num :=
  let! s := ToString_value v in Normal (parseFloat_string s).

Fixpoint index_from {A : Type} (i : Z) (l : list A) : list (string * A) :=
  match l with
  | [] => []
  | a :: r => (digits_of i, a) :: index_from (i + 1) r
  end.

Fixpoint chars (s : string) : list JSON :=
  match s with
  | EmptyString => []
  | String c r => JString (String c EmptyString) :: chars r
  end.

(** [Object.entries(v)] *)
Definition Object_entries (v : JSON) : Completion (list (string * JSON)) :=
  match v with
  | JNull => Throw TypeError
  | JObject fields => Normal fields
  | JArray items => Normal (index_from 0 items)
  | JString s => Normal (index_from 0 (chars s))
  | JBool _ | JNumber _ => Normal []
  end.

(** *** Dates *)

(** days since 1970-01-01 of a day of the proleptic Gregorian calendar *)
Definition days_from_civil (y m d : Z) : Z :=
  let y' := if m <=? 2 then y - 1 else y in
  let era := y' / 400 in
  let yoe := y' - era * 400 in
  let mp := (m + 9) mod 12 in
  let doy := (153 * mp + 2) / 5 + d - 1 in
  let doe := yoe * 365 + yoe / 4 - yoe / 100 + doy in
  era * 146097 + doe - 719468.

(** the calendar day (year, month, day) of a day number *)
Definition civil_from_days (z : Z) : Z * Z * Z :=
  let z' := z + 719468 in
  let era := z' / 146097 in
  let doe := z' - era * 146097 in
  let yoe := (doe - doe / 1460 + doe / 36524 - doe / 146096) / 365 in
  let doy := doe - (365 * yoe + yoe / 4 - yoe / 100) in
  let mp := (5 * doy + 2) / 153 in
  let d := doy - (153 * mp + 2) / 5 + 1 in
  let m := if mp <? 10 then mp + 3 else mp - 9 in
  let y := yoe + era * 400 in
  ((if m <=? 2 then y + 1 else y), m, d).

Definition is_leap (y : Z) : bool :=
  ((y mod 4 =? 0) && negb (y mod 100 =? 0)) || (y mod 400 =? 0).

Definition days_in_month (y m : Z) : Z :=
  if m =? 2 then (if is_leap y then 29 else 28)
  else if (m =? 4) || (m =? 6) || (m =? 9) || (m =? 11) then 30
  else 31.

Definition ms_per_day : Z := 86400000.

(** The time value of [new Date(s)] for the date-only form [YYYY-MM-DD]
    of the language's date-time format, read as UTC midnight; [None] is
    the invalid date, whose time value is [NaN]. Text in any other form
    goes through engine-specific parsing, which is outside the model and
    reads as the invalid date here. *)
Definition Date_parse (s : string) : option Z :=
  match s with
  | String y1 (String y2 (String y3 (String y4 (String "-"
      (String m1 (String m2 (String "-" (String d1 (String d2 EmptyString))))))))) =>
      if forallb is_digit [y1; y2; y3; y4; m1; m2; d1; d2] then
        let y := digits_value (String y1 (String y2 (String y3 (String y4 EmptyString)))) in
        let m := digits_value (String m1 (String m2 EmptyString)) in
        let d := digits_value (String d1 (String d2 EmptyString)) in
        if (1 <=? m) && (m <=? 12) && (1 <=? d) && (d <=? days_in_month y m)
        then Some (days_from_civil y m d * ms_per_day)
        else None
      else None
  | _ => None
  end.

(** [new Date(t).toISOString()] *)
Definition toISOString (t : Z) : string :=
  let '(y, m, d) := civil_from_days (t / ms_per_day) in
  let r := t mod ms_per_day in
  let year :=
    if (0 <=? y) && (y <=? 9999) then pad 4 y
    else (if y <? 0 then "-" else "+") +:+ pad 6 (Z.abs y) in
  year +:+ "-" +:+ pad 2 m +:+ "-" +:+ pad 2 d +:+ "T" +:+
  pad 2 (r / 3600000) +:+ ":" +:+ pad 2 (r / 60000 mod 60) +:+ ":" +:+
  pad 2 (r / 1000 mod 60) +:+ "." +:+ pad 3 (r mod 1000) +:+ "Z".

(** [new Date(a) - new Date(b)]; [None] is [NaN] *)
Definition date_difference (a b : string) : option Z :=
  match Date_parse a, Date_parse b with
  | Some x, Some y => Some (x - y)
  | _, _ => None
  end.

(** *** Sorting *)

Section Sort.
Context {A : Type}.
(** [comparefn a b], [None] standing for [NaN] *)
Variable comparefn : A -> A -> option Z.

(** [a] goes after [b] when the comparison is positive; [NaN] counts
    as zero. *)
Definition goes_after (a b : A) : bool :=
  match comparefn a b with
  | Some v => 0 <? v
  | None => false
  end.

Fixpoint insert_sorted (x : A) (l : list A) : list A :=
  match l with
  | [] => [x]
  | y :: r => if goes_after x y then y :: insert_sorted x r else x :: y :: r
  end.

(** [Array.prototype.sort(comparefn)]: the stable sort. When the
    comparison is not a consistent ordering of the elements the
    language leaves the resulting order to the engine; the model then
    gives the order of this insertion sort. *)
Fixpoint sort (l : list A) : list A :=
  match l with
  | [] => []
  | x :: r => insert_sorted x (sort r)
  end.
End Sort.

(** *** JSON text *)

Definition is_json_space (c : ascii) : bool :=
  let n := code c in (n =? 32) || (n =? 9) || (n =? 10) || (n =? 13).

Fixpoint skip_ws (s : string) : string :=
  match s with
  | String c r => if is_json_space c then skip_ws r else s
  | EmptyString => EmptyString
  end.

Definition is_hex (c : ascii) : bool :=
  let n := code c in
  is_digit c || ((65 <=? n) && (n <=? 70)) || ((97 <=? n) && (n <=? 102)).

Definition is_escape (c : ascii) : bool :=
  Ascii.eqb c dquote || Ascii.eqb c backslash ||
  existsb (Ascii.eqb c) ["/"; "b"; "f"; "n"; "r"; "t"]%char.

(** the rest of the text after a string token whose opening quote has
    been read *)
Fixpoint string_body (s : string) : option string :=
  match s with
  | EmptyString => None
  | String c r =>
      if Ascii.eqb c dquote then Some r
      else if Ascii.eqb c backslash then
        match r with
        | String e r' =>
            if is_escape e then string_body r'
            else if Ascii.eqb e "u" then
              match r' with
              | String h1 (String h2 (String h3 (String h4 r''))) =>
                  if forallb is_hex [h1; h2; h3; h4] then string_body r'' else None
              | _ => None
              end
            else None
        | EmptyString => None
        end
      else if code c <? 32 then None
      else string_body r
  end.

Definition nonempty_digits (s : string) : option string :=
  match span_digits s with
  | (EmptyString, _) => None
  | (_, r) => Some r
  end.

Definition fraction_exponent (s : string) : option string :=
  match (match s with
         | String "." t => nonempty_digits t
         | _ => Some s
         end) with
  | None => None
  | Some r =>
      match r with
      | String c t =>
          if Ascii.eqb c "e" || Ascii.eqb c "E" then
            match t with
            | String "-" u | String "+" u => nonempty_digits u
            | _ => nonempty_digits t
            end
          else Some r
      | EmptyString => Some r
      end
  end.

(** the rest of the text after a number token *)
Definition number_token (s : string) : option string :=
  let u := match s with String "-" r => r | _ => s end in
  match u with
  | String c r =>
      if Ascii.eqb c "0" then fraction_exponent r
      else if is_digit c then fraction_exponent (snd (span_digits r))
      else None
  | EmptyString => None
  end.

Fixpoint value_token (fuel : nat) (s : string) : option string :=
  match fuel with
  | O => None
  | S f =>
      match skip_ws s with
      | String c r =>
          if Ascii.eqb c "{" then
            match skip_ws r with
            | String "}" r' => Some r'
            | _ => members f r
            end
          else if Ascii.eqb c "[" then
            match skip_ws r with
            | String "]" r' => Some r'
            | _ => elements f r
            end
          else if Ascii.eqb c dquote then string_body r
          else if Ascii.eqb c "t" then strip_prefix "rue" r
          else if Ascii.eqb c "f" then strip_prefix "alse" r
          else if Ascii.eqb c "n" then strip_prefix "ull" r
          else number_token (String c r)
      | EmptyString => None
      end
  end
with members (fuel : nat) (s : string) : option string :=
  match fuel with
  | O => None
  | S f =>
      match skip_ws s with
      | String c r =>
          if Ascii.eqb c dquote then
            match string_body r with
            | Some r1 =>
                match skip_ws r1 with
                | String ":" r2 =>
                    match value_token f r2 with
                    | Some r3 =>
                        match skip_ws r3 with
                        | String "," r4 => members f r4
                        | String "}" r4 => Some r4
                        | _ => None
                        end
                    | None => None
                    end
                | _ => None
                end
            | None => None
            end
          else None
      | EmptyString => None
      end
  end
with elements (fuel : nat) (s : string) : option string :=
  match fuel with
  | O => None
  | S f =>
      match value_token f s with
      | Some r1 =>
          match skip_ws r1 with
          | String "," r2 => elements f r2
          | String "]" r2 => Some r2
          | _ => None
          end
      | None => None
      end
  end.

(** whether [text] is a JSON document, that is, whether [JSON.parse]
    returns rather than throws its [SyntaxError] *)
Definition is_JSON (text : string) : bool :=
  match value_token (2 * String.length text + 2) text with
  | Some r => String.eqb (skip_ws r) ""
  | None => false
  end.

(** [JSON.parse(text)] with its result dropped *)
Definition JSON_parse (text : string) : Completion unit :=
  if is_JSON text then Normal tt else Throw SyntaxError.

Definition hex_digit (n : Z) : ascii :=
  ascii_of_nat (Z.to_nat (if n <? 10 then 48 + n else 87 + n)).

Definition quote_char (c : ascii) : string :=
  let n := code c in
  if Ascii.eqb c dquote then String backslash dq
  else if Ascii.eqb c backslash then String backslash (String backslash EmptyString)
  else if n =? 8 then String backslash "b"
  else if n =? 12 then String backslash "f"
  else if n =? 10 then String backslash "n"
  else if n =? 13 then String backslash "r"
  else if n =? 9 then String backslash "t"
  else if n <? 32 then
    String backslash ("u00" +:+ String (hex_digit (n / 16)) (String (hex_digit (n mod 16)) EmptyString))
  else String c EmptyString.

Fixpoint quote_chars (s : string) : string :=
  match s with
  | EmptyString => EmptyString
  | String c r => quote_char c +:+ quote_chars r
  end.

(** [JSON.stringify(s)] for a string [s] *)
Definition JSON_quote (s : string) : string := dq +:+ quote_chars s +:+ dq.

(** [JSON.stringify(x)] for a number [x] *)
Definition JSON_number (x : Num) : string :=
  if is_finite x then Number_toString x else "null".

End JS.

(** ** The cache: [new NodeCache({ stdTTL: 3600 })]

    [node-cache] keeps, for every key, the value and the instant [t] (in
    milliseconds) at which it expires, [0] meaning never. The options
    left at their defaults are [useClones] (values are copied in and out,
    which for the immutable values of this model is the identity) and
    [deleteOnExpire] (a read that meets an expired entry removes it). *)

Module NodeCache.

Record Entry (V : Type) : Type := { t : Z; v : V }.
Arguments t {V} _.
Arguments v {V} _.

Section Cache.
Context {V : Type}.
(** the [stdTTL] option, in seconds *)
Variable stdTTL : Z.

(** [_check]: [data.t !== 0 && data.t < Date.now()] *)
Definition expired (now : Z) (e : Entry V) : bool :=
  negb (t e =? 0) && (t e <? now).

(** [cache.get(key)]: the value and the cache after the read;
    [None] is [undefined]. *)
Definition get (now : Z) (key : string) (data : gmap string (Entry V))
  : gmap string (Entry V) * option V :=
  match data !! key with
  | Some e => if expired now e then (delete key data, None) else (data, Some (v e))
  | None => (data, None)
  end.

(** [_wrap(value, undefined)] *)
Definition wrap (now : Z) (value : V) : Entry V :=
  {| t := if stdTTL =? 0 then 0 else now + stdTTL * 1000; v := value |}.

(** [cache.set(key, value)] *)
Definition set (now : Z) (key : string) (value : V) (data : gmap string (Entry V))
  : gmap string (Entry V) :=
  <[key := wrap now value]> data.
End Cache.

End NodeCache.

(** ** [utils/validation] *)

Module Validation.
Import Text.

Definition validSymbols : gset string :=
  list_to_set ["AAPL"; "MSFT"; "GOOGL"; "AMZN"; "META"; "TSLA"; "NVDA"; "JPM"; "V"; "WMT"].

Fixpoint all_upper (s : string) : bool :=
  match s with
  | EmptyString => true
  | String c r => is_upper c && all_upper r
  end.

(** [/^[A-Z]{1,5}$/.test(symbol)] *)
Definition matches_format (symbol : string) : bool :=
  (1 <=? len symbol) && (len symbol <=? 5) && all_upper symbol.

Definition validateStockSymbol (symbol : string) : bool :=
  if negb (matches_format symbol) then false
  else bool_decide (symbol ∈ validSymbols).

End Validation.

(** ** What the two variants of the server share *)

Module App.
Import Text JS.

(** an element of [closingPrices]: [{ date, close }] *)
Record PricePoint : Type := { date : string; close : Num }.

(** what [res.send] or [res.json] is given: [Stringified v] is the text
    [JSON.stringify] makes of [v] (which writes [NaN] and the infinities
    as [null]), [Literal text] a text assembled by hand. *)
Inductive Body : Type :=
  | Stringified (v : JSON)
  | Literal (text : string).

Record Response : Type := { status : Z; body : Body }.

(** [const cache = new NodeCache({ stdTTL: 3600 })] *)
Definition stdTTL : Z := 3600.


(** [setTimeout(resolve, 13000)], in milliseconds *)
Definition delay : Z := 13000.

Definition Num_of_Z (n : Z) : Num :=
  let '(m, e) := normal (Z.abs n) 0 in Dec (n <? 0) m e.

Definition point_json (p : PricePoint) : JSON :=
  JObject [("date", JString (date p)); ("close", JNumber (close p))].

Definition array_length {A : Type} (l : list A) : JSON :=
  JNumber (Num_of_Z (Z.of_nat (length l))).

(** [error.message || error] *)
Definition error_shown (error : JSON) : Completion JSON :=
  let! message := get error "message" in
  Normal (match or_else message (Some error) with
          | Some x => x
          | None => error
          end).

Definition error_response (now : Z) (shown : JSON) (statusCode : Z) : Response :=
  {| status := statusCode;
     body := Stringified (JObject [("status", JString "error");
                                   ("error", shown);
                                   ("timestamp", JString (toISOString now))]) |}.

(** [res.apiError(error, statusCode)] *)
Definition apiError (now : Z) (error : JSON) (statusCode : Z) : Completion Response :=
  let! shown := error_shown error in
  Normal (error_response now shown statusCode).

(** [res.apiSuccess(data)] *)
Definition apiSuccess (now : Z) (data : JSON) : Response :=
  {| status := 200;
     body := Stringified (JObject [("status", JString "success");
                                   ("data", data);
                                   ("timestamp", JString (toISOString now))]) |}.

(** the handler's [catch (error)]: [res.apiError('Failed to process stock
    data')], status 500 by default; a string has no [message]. *)
Definition failed (now : Z) : Response :=
  error_response now (JString "Failed to process stock data") 500.

(** a piece of the handler inside its [try] *)
Definition try_catch (now : Z) (c : Completion Response) : Response :=
  match c with
  | Normal r => r
  | Throw _ => failed now
  end.

(** [!response.data || !response.data['Time Series (Daily)']] *)
Definition no_series (data : JSON) : Completion bool :=
  if negb (truthy data) then Normal true
  else let! series := get data "Time Series (Daily)" in
       Normal (negb (truthy_value series)).

(** [([date, data]) => ({ date, close: parseFloat(data['4. close'] ||
    data['5. adjusted close']) })] *)
Definition closing_price (entry : string * JSON) : Completion PricePoint :=
  let '(date, data) := entry in
  let! primary := get data "4. close" in
  let! price := (if truthy_value primary then Normal primary
                 else get data "5. adjusted close") in
  let! close := parseFloat price in
  Normal {| date := date; close := close |}.

(** [(a, b) => new Date(a.date) - new Date(b.date)] *)
Definition by_date (a b : PricePoint) : option Z :=
  date_difference (date a) (date b).

(** [Object.entries(timeSeries).map(...).sort(...)] *)
Definition closingPrices (timeSeries : JSON) : Completion (list PricePoint) :=
  let! entries := Object_entries timeSeries in
  let! points := mapM closing_price entries in
  Normal (sort by_date points).

(** [response.data['Time Series (Daily)'] || response.data['Time Series
    (Daily Adjusted)']] followed by the transformation *)
Definition transform (data : JSON) : Completion (list PricePoint) :=
  let! daily := get data "Time Series (Daily)" in
  let! timeSeries := (if truthy_value daily then Normal daily
                      else get data "Time Series (Daily Adjusted)") in
  match timeSeries with
  | Some series => closingPrices series
  | None => Throw TypeError   (* [Object.entries(undefined)] *)
  end.

(** where the synchronous start of the handler ends: with an answer, or
    at [await axios.get(...)] for [symbol] *)
Inductive Started : Type :=
  | Respond (r : Response)
  | CallProvider (symbol : string).

End App.

(** ** [server.js] *)

Module Server.
Import Text JS Validation App.

(** the cache hit: [res.send(JSON.stringify({ status, data, timestamp },
    null, 2))] *)
Definition cached_response (now : Z) (symbol : string) (cachedData : list PricePoint) : Response :=
  {| status := 200;
     body := Stringified
       (JObject [("status", JString "success");
                 ("data", JObject [("symbol", JString symbol);
                                   ("closingPrices", JArray (map point_json cachedData));
                                   ("cached", JBool true);
                                   ("dataPoints", array_length cachedData)]);
                 ("timestamp", JString (toISOString now))]) |}.

(** The handler up to [await axios.get(...)]. *)
Definition on_request (now : Z) (raw : string)
    (cache : gmap string (NodeCache.Entry (list PricePoint)))
  : gmap string (NodeCache.Entry (list PricePoint)) * Started :=
  let symbol := toUpperCase raw in
  if negb (validateStockSymbol symbol) then
    (cache, Respond (try_catch now (apiError now (JString "Invalid stock symbol") 400)))
  else
    let '(cache', cachedData) := NodeCache.get now symbol cache in
    match cachedData with
    | Some series => (cache', Respond (cached_response now symbol series))
    | None => (cache', CallProvider symbol)
    end.

(** the branch taken when the response has no daily series *)
Definition includes_rate_limit (note : JSON) : Completion bool :=
  match note with
  | JString s => Normal (includes "API rate limit" s)
  | JArray items =>
      Normal (existsb (fun x => match x with
                                | JString s => String.eqb s "API rate limit"
                                | _ => false
                                end) items)
  | _ => Throw TypeError   (* no [includes] method to call *)
  end.

Definition no_series_response (now : Z) (data : JSON) : Completion Response :=
  let! note := get data "Note" in
  let! limited := (match note with
                   | Some n => if truthy n then includes_rate_limit n else Normal false
                   | None => Normal false
                   end) in
  if limited then
    apiError now (JString "Alpha Vantage API limit reached (5 requests/minute). Please wait 1 minute.") 429
  else
    let! information := get data "Information" in
    match information with
    | Some i => if truthy i then apiError now i 400
                else apiError now (JString "No data found for symbol") 404
    | None => apiError now (JString "No data found for symbol") 404
    end.

(** *** The response text assembled by hand *)

Definition typeof (x : Num) : string := "number".

Definition stringify_item (item : PricePoint) : string :=
  "{" +:+ dq +:+ "date" +:+ dq +:+ ":" +:+ JSON_quote (date item) +:+ "," +:+
  dq +:+ "close" +:+ dq +:+ ":" +:+ JSON_number (close item) +:+ "}".

Definition item_text (item : PricePoint) : string :=
  nl +:+ "      {" +:+
  nl +:+ "        " +:+ dq +:+ "date" +:+ dq +:+ ": " +:+ dq +:+ date item +:+ dq +:+ "," +:+
  nl +:+ "        " +:+ dq +:+ "close" +:+ dq +:+ ": " +:+ Number_toString (close item) +:+
  nl +:+ "      }".

(** [closingPrices.forEach((item, index) => ...)]: the text added for
    the items from [index] on, or the error thrown at the first bad one *)
Fixpoint items_text (index length : Z) (items : list PricePoint) : Completion string :=
  match items with
  | [] => Normal EmptyString
  | item :: rest =>
      if String.eqb (date item) "" || negb (String.eqb (typeof (close item)) "number") then
        Throw (Error ("Invalid price data at index " +:+ digits_of index +:+ ": " +:+
                      stringify_item item))
      else
        let! more := items_text (index + 1) length rest in
        Normal (item_text item +:+ (if index <? length - 1 then "," else "") +:+ more)
  end.

Definition head_text (symbol : string) : string :=
  "{" +:+
  nl +:+ "  " +:+ dq +:+ "status" +:+ dq +:+ ": " +:+ dq +:+ "success" +:+ dq +:+ "," +:+
  nl +:+ "  " +:+ dq +:+ "data" +:+ dq +:+ ": {" +:+
  nl +:+ "    " +:+ dq +:+ "symbol" +:+ dq +:+ ": " +:+ dq +:+ symbol +:+ dq +:+ "," +:+
  nl +:+ "    " +:+ dq +:+ "closingPrices" +:+ dq +:+ ": [".

Definition tail_text (now : Z) (length : Z) : string :=
  nl +:+ "    ]," +:+
  nl +:+ "    " +:+ dq +:+ "cached" +:+ dq +:+ ": false," +:+
  nl +:+ "    " +:+ dq +:+ "dataPoints" +:+ dq +:+ ": " +:+ digits_of length +:+
  nl +:+ "  }," +:+
  nl +:+ "  " +:+ dq +:+ "timestamp" +:+ dq +:+ ": " +:+ dq +:+ toISOString now +:+ dq +:+
  nl +:+ "}".

(** the inner [try] block: build [jsonStr], check it with [JSON.parse] *)
Definition build (now : Z) (symbol : string) (closingPrices : list PricePoint) : Completion string :=
  let n := Z.of_nat (length closingPrices) in
  let! items := items_text 0 n closingPrices in
  let jsonStr := head_text symbol +:+ items +:+ tail_text now n in
  let! _ := JSON_parse jsonStr in
  Normal jsonStr.

(** the inner [try ... catch]: the text is sent, or the failure to build
    it is answered with status 500 *)
Definition fresh_response (now : Z) (symbol : string) (closingPrices : list PricePoint) : Response :=
  match build now symbol closingPrices with
  | Normal jsonStr => {| status := 200; body := Literal jsonStr |}
  | Throw error =>
      {| status := 500;
         body := Stringified (JObject [("status", JString "error");
                                       ("error", JString "Failed to construct valid response");
                                       ("details", JString (Exn_message error))]) |}
  end.

(** The handler from the moment the 13 second timer has fired, [data]
    being [response.data]. *)
Definition after_wait (now : Z) (symbol : string) (data : JSON)
    (cache : gmap string (NodeCache.Entry (list PricePoint)))
  : gmap string (NodeCache.Entry (list PricePoint)) * Response :=
  match no_series data with
  | Throw _ => (cache, failed now)
  | Normal true => (cache, try_catch now (no_series_response now data))
  | Normal false =>
      match transform data with
      | Throw _ => (cache, failed now)
      | Normal closingPrices =>
          (NodeCache.set stdTTL now symbol closingPrices cache,
           fresh_response now symbol closingPrices)
      end
  end.

(** The handler when [axios.get] rejects: the [catch] answers at once. *)
Definition on_reject (now : Z) : Response := failed now.

End Server.

(** ** [server_backup.js]

    The earlier variant counts its provider calls in [apiUsage] and
    answers through [res.apiSuccess] throughout. The request limiter it
    mounts in front of every route ([express-rate-limit]) belongs to the
    framework and runs before the handler; the handler itself is what is
    embedded here. Log lines are left out in both variants. *)

Module Backup.
Import Text JS Validation App.

(** the value kept per day in [apiUsage] *)
Record Usage : Type := { daily : Z; hourly : gmap Z Z; minutely : gmap Z Z }.

(** the module-level state: [cache] and [apiUsage] *)
Record State : Type := {
  cache : gmap string (NodeCache.Entry (list PricePoint));
  apiUsage : gmap string Usage
}.

Definition number_text (n : Z) : string := Number_toString (Num_of_Z n).

(** [`${year}-${month}-${day}`], the month counted from 0 as [getMonth]
    does; the process clock is taken to run in UTC. *)
Definition usage_key (now : Z) : string :=
  let '(year, month, day) := civil_from_days (now / ms_per_day) in
  number_text year +:+ "-" +:+ number_text (month - 1) +:+ "-" +:+ number_text day.

Definition getHours (now : Z) : Z := now mod ms_per_day / 3600000.
Definition getMinutes (now : Z) : Z := now mod ms_per_day / 60000 mod 60.

(** [counts[k] = (counts[k] || 0) + 1] *)
Definition bump (k : Z) (counts : gmap Z Z) : gmap Z Z :=
  <[k := default 0 (counts !! k) + 1]> counts.

(** [trackApiUsage(symbol)], the log line left out *)
Definition trackApiUsage (now : Z) (usage : gmap string Usage) : gmap string Usage :=
  let key := usage_key now in
  let u := default {| daily := 0; hourly := ∅; minutely := ∅ |} (usage !! key) in
  <[key := {| daily := daily u + 1;
              hourly := bump (getHours now) (hourly u);
              minutely := bump (getMinutes now) (minutely u) |}]> usage.

(** the object both success answers hand to [res.apiSuccess] *)
Definition payload (now : Z) (symbol : string) (series : list PricePoint) (cached : bool) : JSON :=
  JObject [("status", JString "success");
           ("data", JObject [("symbol", JString symbol);
                             ("closingPrices", JArray (map point_json series));
                             ("cached", JBool cached);
                             ("dataPoints", array_length series)]);
           ("timestamp", JString (toISOString now))].

(** The handler up to [await axios.get(...)]. *)
Definition on_request (now : Z) (raw : string) (st : State) : State * Started :=
  let symbol := toUpperCase raw in
  if negb (validateStockSymbol symbol) then
    (st, Respond (try_catch now (apiError now (JString "Invalid stock symbol") 400)))
  else
    let '(cache', cachedData) := NodeCache.get now symbol (cache st) in
    match cachedData with
    | Some series =>
        ({| cache := cache'; apiUsage := apiUsage st |},
         Respond (apiSuccess now (payload now symbol series true)))
    | None =>
        ({| cache := cache'; apiUsage := trackApiUsage now (apiUsage st) |},
         CallProvider symbol)
    end.

Definition no_series_response (now : Z) (data : JSON) : Completion Response :=
  let! note := get data "Note" in
  let! information := get data "Information" in
  match or_else note information with
  | Some notice =>
      if truthy notice then apiError now notice 429
      else apiError now (JString "No data found for symbol") 404
  | None => apiError now (JString "No data found for symbol") 404
  end.

(** The handler from the moment the 13 second timer has fired. *)
Definition after_wait (now : Z) (symbol : string) (data : JSON) (st : State) : State * Response :=
  match no_series data with
  | Throw _ => (st, failed now)
  | Normal true => (st, try_catch now (no_series_response now data))
  | Normal false =>
      match transform data with
      | Throw _ => (st, failed now)
      | Normal closingPrices =>
          ({| cache := NodeCache.set stdTTL now symbol closingPrices (cache st);
              apiUsage := apiUsage st |},
           apiSuccess now (payload now symbol closingPrices false))
      end
  end.

Definition on_reject (now : Z) : Response := failed now.

End Backup.

(** ** The event loop

    A handler runs in pieces: from the arrival of the request to its
    first [await], from the settling of [axios.get] to the arming of the
    timer, and from the firing of the timer to the answer. Pieces of
    different requests interleave freely; each one runs to its end
    before the next starts. *)

Module Loop.
Import JS App.

Record Handler (St : Type) : Type := {
  start : Z -> string -> St -> St * Started;
  resume : Z -> string -> JSON -> St -> St * Response;
  fail : Z -> Response
}.
Arguments start {St} _ _ _ _.
Arguments resume {St} _ _ _ _ _.
Arguments fail {St} _ _.

(** a request suspended at [await axios.get(...)], or at the [await] of
    the timer armed at [armed] *)
Inductive Task : Type :=
  | AwaitingProvider (symbol : string)
  | AwaitingTimer (symbol : string) (data : JSON) (armed : Z).

(** an outbound call to the provider *)
Record Call : Type := { caller : nat; target : string; sent : Z }.

(** an answer given to a request *)
Record Answer : Type := { asker : nat; answered : Z; response : Response }.

Record World (St : Type) : Type := {
  clock : Z;                       (* the time of the last event *)
  store : St;                      (* the module-level state *)
  next : nat;                      (* requests seen so far *)
  tasks : gmap nat Task;           (* the suspended requests *)
  calls : list Call;               (* provider calls, latest first *)
  returned : list (nat * Z);       (* provider calls that resolved, and when *)
  answers : list Answer            (* answers sent, latest first *)
}.
Arguments clock {St} _.
Arguments store {St} _.
Arguments next {St} _.
Arguments tasks {St} _.
Arguments calls {St} _.
Arguments returned {St} _.
Arguments answers {St} _.

Inductive Event : Type :=
  | Request (raw : string)            (* a request for [/api/stock/raw] arrives *)
  | Resolve (id : nat) (data : JSON)  (* the provider call of [id] resolves *)
  | Reject (id : nat)                 (* the provider call of [id] rejects *)
  | Timer (id : nat)                  (* the timer of [id] fires *).

Section Run.
Context {St : Type}.
Variable h : Handler St.

Definition boot (s : St) : World St :=
  {| clock := 0; store := s; next := 0; tasks := ∅; calls := [];
     returned := []; answers := [] |}.

(** One event at time [now]. The clock does not run backwards, an
    event concerns a request in the matching state, and a timer fires
    no earlier than [delay] after it was armed. *)
Definition step (w : World St) (now : Z) (ev : Event) : option (World St) :=
  if now <? clock w then None else
  match ev with
  | Request raw =>
      let id := next w in
      let '(s', r) := start h now raw (store w) in
      Some match r with
           | Respond resp =>
               {| clock := now; store := s'; next := S id; tasks := tasks w;
                  calls := calls w; returned := returned w;
                  answers := {| asker := id; answered := now; response := resp |} :: answers w |}
           | CallProvider symbol =>
               {| clock := now; store := s'; next := S id;
                  tasks := <[id := AwaitingProvider symbol]> (tasks w);
                  calls := {| caller := id; target := symbol; sent := now |} :: calls w;
                  returned := returned w; answers := answers w |}
           end
  | Resolve id data =>
      match tasks w !! id with
      | Some (AwaitingProvider symbol) =>
          Some {| clock := now; store := store w; next := next w;
                  tasks := <[id := AwaitingTimer symbol data now]> (tasks w);
                  calls := calls w; returned := (id, now) :: returned w;
                  answers := answers w |}
      | _ => None
      end
  | Reject id =>
      match tasks w !! id with
      | Some (AwaitingProvider symbol) =>
          Some {| clock := now; store := store w; next := next w;
                  tasks := delete id (tasks w);
                  calls := calls w; returned := returned w;
                  answers := {| asker := id; answered := now; response := fail h now |} :: answers w |}
      | _ => None
      end
  | Timer id =>
      match tasks w !! id with
      | Some (AwaitingTimer symbol data armed) =>
          if now <? armed + delay then None else
          let '(s', resp) := resume h now symbol data (store w) in
          Some {| clock := now; store := s'; next := next w;
                  tasks := delete id (tasks w);
                  calls := calls w; returned := returned w;
                  answers := {| asker := id; answered := now; response := resp |} :: answers w |}
      | _ => None
      end
  end.

Fixpoint run (w : World St) (events : list (Z * Event)) : option (World St) :=
  match events with
  | [] => Some w
  | (now, ev) :: rest =>
      match step w now ev with
      | Some w' => run w' rest
      | None => None
      end
  end.
End Run.

Definition server : Handler (gmap string (NodeCache.Entry (list PricePoint))) :=
  {| start := Server.on_request; resume := Server.after_wait; fail := Server.on_reject |}.

Definition backup : Handler Backup.State :=
  {| start := Backup.on_request; resume := Backup.after_wait; fail := Backup.on_reject |}.

End Loop.

(** ** Vocabulary of the properties, and sample inputs *)

Module Sample.
Import JS App Loop.

(** whether a [Note] is a text that mentions the rate limit *)
Definition note_says_limit (note : Value) : bool :=
  match note with
  | Some (JString s) => Text.includes "API rate limit" s
  | _ => false
  end.

(** the top-level field [k] of a JSON answer *)
Definition field (k : string) (r : Response) : Value :=
  match body r with
  | Stringified (JObject fields) => assoc k fields
  | _ => None
  end.

(** the points of the series in a JSON answer of [server.js] *)
Definition served_points (r : Response) : Value :=
  match field "data" r with
  | Some (JObject fields) => assoc "closingPrices" fields
  | _ => None
  end.

(** the time value of a point's date *)
Definition time (p : PricePoint) : option Z := Date_parse (date p).

(** [a] is dated strictly before [b] *)
Definition before (a b : PricePoint) : Prop :=
  exists x y, time a = Some x /\ time b = Some y /\ x < y.

(** [a] is dated no later than [b] *)
Definition not_after (a b : PricePoint) : Prop :=
  exists x y, time a = Some x /\ time b = Some y /\ x <= y.

(** the number of days from the start of year 0 to the start of year
    [y], leap days counted *)
Definition year_start (y : Z) : Z := 365 * y + y / 4 - y / 100 + y / 400.

(** day [d] of month [m] exists in year [y] *)
Definition calendar_day (y m d : Z) : Prop :=
  1 <= m <= 12 /\ 1 <= d <= days_in_month y m.

(** a day's entry as the provider sends it: an object whose fields are
    all texts *)
Definition text_fields (entry : JSON) : bool :=
  match entry with
  | JObject fields =>
      forallb (fun kv => match snd kv with JString _ => true | _ => false end) fields
  | _ => false
  end.

(** any two provider calls made for different requests start at least
    [gap] apart *)
Definition spaced (gap : Z) (cs : list Call) : Prop :=
  forall c1 c2, In c1 cs -> In c2 cs -> caller c1 <> caller c2 ->
                gap <= Z.abs (sent c1 - sent c2).

(** what every reachable state of the event loop satisfies: requests not
    yet seen have no task; an answered request has none either; every
    provider call was made in the past, for a request already seen; a
    request whose provider call resolved at [t] made its call no later
    than [t], and is waiting for the timer armed at [t] or was answered
    no earlier than [t + delay]. *)
Definition consistent {St : Type} (w : World St) : Prop :=
  (forall id, (next w <= id)%nat -> tasks w !! id = None) /\
  (forall a, In a (answers w) -> (asker a < next w)%nat /\ tasks w !! asker a = None) /\
  (forall c, In c (calls w) -> (caller c < next w)%nat /\ sent c <= clock w) /\
  (forall id t, In (id, t) (returned w) ->
     (id < next w)%nat /\
     (forall c, In c (calls w) -> caller c = id -> sent c <= t) /\
     match tasks w !! id with
     | Some (AwaitingTimer _ _ armed) => armed = t
     | Some (AwaitingProvider _) => False
     | None => forall a, In a (answers w) -> asker a = id -> t + delay <= answered a
     end).

(** a response of the provider that only carries an [Information] text *)
Definition information_only : JSON :=
  JObject [("Information", JString "Thank you for using Alpha Vantage! Please visit the premium page.")].

(** the provider's notice about the call frequency *)
Definition frequency_note : JSON :=
  JObject [("Note", JString "Thank you for using Alpha Vantage! Our standard API call frequency is 5 calls per minute and 500 calls per day.")].

(** a notice that names the rate limit *)
Definition rate_limit_note : JSON :=
  JObject [("Note", JString "You have reached the API rate limit.")].

(** three days, the last one first *)
Definition three_days : JSON :=
  JObject [("Meta Data", JObject [("2. Symbol", JString "AAPL")]);
           ("Time Series (Daily)", JObject [
              ("2024-01-04", JObject [("4. close", JString "184.9")]);
              ("2024-01-03", JObject [("4. close", JString "186.2")]);
              ("2024-01-02", JObject [("4. close", JString "185.6")])])].

(** a day whose entry has neither [4. close] nor [5. adjusted close] *)
Definition missing_close : JSON :=
  JObject [("Time Series (Daily)", JObject [
              ("2024-01-03", JObject [("1. open", JString "186.0")]);
              ("2024-01-02", JObject [("4. close", JString "185.6")])])].

(** a client that sends its second request when the first is answered:
    the provider call resolves after 800 ms, the timer fires 13 s later *)
Definition one_after_another : list (Z * Event) :=
  [(0, Request "AAPL"); (800, Resolve 0%nat rate_limit_note);
   (13800, Timer 0%nat); (13800, Request "MSFT")].

(** 2024-01-05T00:00:00Z *)
Definition jan5 : Z := 1704412800000.

End Sample.

(** ** The usage report of [server_backup.js], and further vocabulary *)

Module Report.
Import Text JS App Loop Validation.

(** a row of [usageData] in [/api-usage] *)
Record Row : Type := { row_date : string; row_daily : Z; row_hourly : Z; row_minutely : Z }.

(** [([date, usage]) => ({ date, daily: usage.daily, hourly:
    usage.hourly[currentHour] || 0, minutely:
    usage.minutely[currentMinute] || 0 })], with [now] the instant of
    the report. The endpoint lists one such row per day on record, in
    the order the days were first seen. *)
Definition usage_row (now : Z) (entry : string * Backup.Usage) : Row :=
  let '(date, usage) := entry in
  {| row_date := date;
     row_daily := Backup.daily usage;
     row_hourly := default 0 (Backup.hourly usage !! Backup.getHours now);
     row_minutely := default 0 (Backup.minutely usage !! Backup.getMinutes now) |}.

(** the sum of the counts of a table of sub-counts *)
Definition sum_counts (counts : gmap Z Z) : Z :=
  map_fold (fun _ n acc => n + acc) 0 counts.

(** the sum of the daily counts over all days on record *)
Definition total_daily (usage : gmap string Backup.Usage) : Z :=
  map_fold (fun _ u acc => Backup.daily u + acc) 0 usage.

(** a day's record adds up: the daily count is positive, and is the sum
    of the hourly counts and the sum of the minutely counts, which are
    positive and filed under hours 0..23 and minutes 0..59 *)
Definition adds_up (u : Backup.Usage) : Prop :=
  0 < Backup.daily u /\
  Backup.daily u = sum_counts (Backup.hourly u) /\
  Backup.daily u = sum_counts (Backup.minutely u) /\
  map_Forall (fun k n => 0 <= k < 24 /\ 0 < n) (Backup.hourly u) /\
  map_Forall (fun k n => 0 <= k < 60 /\ 0 < n) (Backup.minutely u).

(** the state of [server_backup.js] when the process starts *)
Definition fresh : Backup.State := {| Backup.cache := ∅; Backup.apiUsage := ∅ |}.

(** three requests on 2024-01-05, the first two for listed symbols that
    are not cached, the third for a symbol that is not listed *)
Definition two_misses : list (Z * Event) :=
  [(1704412800000, Request "aapl"); (1704412800005, Request "msft");
   (1704412800010, Request "xom")].

(** only symbols of the allow-list are cache keys, targets of provider
    calls, or symbols of suspended requests *)
Definition listed_only {St : Type} (keys : St -> gset string) (w : World St) : Prop :=
  keys (store w) ⊆ validSymbols /\
  (forall c, In c (calls w) -> target c ∈ validSymbols) /\
  (forall id task, tasks w !! id = Some task ->
     match task with
     | AwaitingProvider symbol | AwaitingTimer symbol _ _ => symbol ∈ validSymbols
     end).

(** a handler that asks the provider for listed symbols only and adds no
    cache key but the symbol it was resumed for *)
Definition keeps_to_list {St : Type} (keys : St -> gset string) (h : Handler St) : Prop :=
  (forall now raw s, keys (fst (start h now raw s)) ⊆ keys s) /\
  (forall now raw s symbol, snd (start h now raw s) = CallProvider symbol ->
                            symbol ∈ validSymbols) /\
  (forall now symbol data s, keys (fst (resume h now symbol data s)) ⊆ {[symbol]} ∪ keys s).

(** the status codes the stock endpoint answers with *)
Definition known_status (code : Z) : Prop :=
  code = 200 \/ code = 400 \/ code = 404 \/ code = 429 \/ code = 500.

(** *** The text of a successful answer *)

(** a character that may stand as it is inside a JSON string *)
Definition plain_char (c : ascii) : bool :=
  (32 <=? code c) && negb (Ascii.eqb c dquote) && negb (Ascii.eqb c backslash).

(** a text that stands between quotes as it is *)
Fixpoint plain (s : string) : bool :=
  match s with
  | EmptyString => true
  | String c r => plain_char c && plain r
  end.

(** decimal digits only *)
Fixpoint all_digits (s : string) : bool :=
  match s with
  | EmptyString => true
  | String c r => is_digit c && all_digits r
  end.

(** a text that [JSON.parse] reads as one number when a line break
    follows it *)
Definition number_text (num : string) : Prop :=
  forall rest, number_token (num +:+ String newline rest) = Some (String newline rest).

(** a finite number with non-negative digits *)
Definition finite_close (x : Num) : bool :=
  match x with
  | Dec _ m _ => 0 <=? m
  | _ => false
  end.

(** a point with a non-empty date that needs no escaping and a finite
    close *)
Definition well_formed (p : PricePoint) : bool :=
  negb (String.eqb (date p) "") && plain (date p) && finite_close (close p).

(** [NaN], [Infinity] or [-Infinity] *)
Definition not_finite (x : Num) : bool :=
  match x with
  | Dec _ _ _ => false
  | _ => true
  end.

(** the text from a line break on *)
Definition NL (r : string) : string := String newline r.

(** the digits of an exponent with their sign *)
Definition exponent_text (es : string) : Prop :=
  exists sign d, (sign = "+" \/ sign = "-") /\ all_digits d = true /\ d <> EmptyString /\
                 es = "e" +:+ sign +:+ d.

(** the sign a number is written with *)
Definition sign_text (neg : bool) : string := if neg then "-" else "".

End Report.

(** case analysis on a month number known to lie between 1 and 12 *)
Ltac each_month m :=
  let H := fresh in
  assert (H : m = 1 \/ m = 2 \/ m = 3 \/ m = 4 \/ m = 5 \/ m = 6 \/ m = 7 \/ m = 8 \/
              m = 9 \/ m = 10 \/ m = 11 \/ m = 12) by lia;
  repeat (destruct H as [H | H]; [subst m |]); [.. | subst m].

(** * Properties *)

Import Text JS Validation App Loop Sample Report.

(** ** Validation *)

Lemma upper_char_idempotent (c : ascii) : upper_char (upper_char c) = upper_char c.
Proof. destruct c as [[] [] [] [] [] [] [] []]; reflexivity. Qed.

Lemma toUpperCase_idempotent (s : string) : toUpperCase (toUpperCase s) = toUpperCase s.
Proof.
  induction s as [| c s IH]; simpl; [reflexivity |].
  now rewrite upper_char_idempotent, IH.
Qed.

Lemma validSymbols_well_formed (s : string) : s ∈ validSymbols -> matches_format s = true.
Proof.
  unfold validSymbols. rewrite elem_of_list_to_set.
  rewrite !elem_of_cons, elem_of_nil.
  intros H; repeat (destruct H as [-> | H]; [reflexivity |]); destruct H.
Qed.

Lemma validate_spec (s : string) :
  validateStockSymbol s = true <-> matches_format s = true /\ s ∈ validSymbols.
Proof.
  unfold validateStockSymbol.
  destruct (matches_format s); simpl.
  - rewrite bool_decide_eq_true. tauto.
  - split; [discriminate | intros [? _]; discriminate].
Qed.


(** C8, as the claim has it, fails: [validateStockSymbol] does not change
    the case of its argument. The lower-case spelling of a listed symbol
    is refused although its upper-case form is accepted. *)
Lemma validator_is_case_sensitive :
  validateStockSymbol "aapl" = false /\
  toUpperCase "aapl" = "AAPL" /\
  validateStockSymbol (toUpperCase "aapl") = true.
Proof. repeat split; vm_compute; reflexivity. Qed.

(** C8, amended: [validateStockSymbol] is a total function that answers
    [true] exactly for the arguments which, as given, match
    [/^[A-Z]{1,5}$/] and belong to the allow-list, that is exactly for
    the members of the allow-list; the upper-casing is done by the route
    handler before the call, so that the handler treats a raw symbol and
    its upper-case form alike. *)
Theorem validator_exact :
  (forall s, validateStockSymbol s = true <-> matches_format s = true /\ s ∈ validSymbols) /\
  (forall s, validateStockSymbol s = true <-> s ∈ validSymbols) /\
  (forall now raw cache,
      Server.on_request now raw cache = Server.on_request now (toUpperCase raw) cache) /\
  (forall now raw st,
      Backup.on_request now raw st = Backup.on_request now (toUpperCase raw) st).
Proof.
  split; [exact validate_spec |].
  split.
  - intros s. rewrite validate_spec. split; [tauto |].
    intros H; split; [now apply validSymbols_well_formed | exact H].
  - split; intros; unfold Server.on_request, Backup.on_request;
      now rewrite toUpperCase_idempotent.
Qed.

(** ** Invalid symbols *)



(** ** The cache *)

Lemma get_live {V : Type} (now : Z) (key : string) (e : NodeCache.Entry V)
    (data : gmap string (NodeCache.Entry V)) :
  data !! key = Some e -> now <= NodeCache.t e ->
  NodeCache.get now key data = (data, Some (NodeCache.v e)).
Proof.
  intros Hk Hle. unfold NodeCache.get, NodeCache.expired. rewrite Hk.
  replace (NodeCache.t e <? now) with false by (symmetry; apply Z.ltb_ge; lia).
  now rewrite andb_false_r.
Qed.

(** C7: a series stored under a key with [cache.set] and read back with
    [cache.get] less than 3600 seconds later comes back as it was stored
    (and the read leaves the cache as it is). *)
Theorem cache_round_trip (now later : Z) (key : string) (series : list PricePoint)
    (data : gmap string (NodeCache.Entry (list PricePoint))) :
  later - now < 3600 * 1000 ->
  NodeCache.get later key (NodeCache.set stdTTL now key series data) =
    (NodeCache.set stdTTL now key series data, Some series).
Proof.
  intros H.
  apply (get_live later key (NodeCache.wrap stdTTL now series)).
  - unfold NodeCache.set. apply lookup_insert_eq.
  - unfold NodeCache.wrap, stdTTL. simpl. lia.
Qed.

Lemma cache_round_trip_example :
  1000 - 0 < 3600 * 1000 /\
  NodeCache.get 1000 "AAPL"
    (NodeCache.set stdTTL 0 "AAPL" [{| date := "2024-01-02"; close := Dec false 1856 (-1) |}] ∅) =
    (NodeCache.set stdTTL 0 "AAPL" [{| date := "2024-01-02"; close := Dec false 1856 (-1) |}] ∅,
     Some [{| date := "2024-01-02"; close := Dec false 1856 (-1) |}]).
Proof.
  assert (H : 1000 - 0 < 3600 * 1000) by lia.
  split; [exact H |].
  exact (cache_round_trip 0 1000 "AAPL" [{| date := "2024-01-02"; close := Dec false 1856 (-1) |}] ∅ H).
Defined.



(** ** Responses without a daily series *)

Lemma apiError_truthy (now : Z) (error : JSON) (statusCode : Z) :
  truthy error = true ->
  exists shown, apiError now error statusCode = Normal (error_response now shown statusCode).
Proof.
  intros H. destruct error; simpl in H; try discriminate; eexists; reflexivity.
Qed.

Lemma apiError_text (now : Z) (text : string) (statusCode : Z) :
  apiError now (JString text) statusCode = Normal (error_response now (JString text) statusCode).
Proof. reflexivity. Qed.

(** C1, as the claim has it, fails on [server.js]: a response with an
    [Information] field, no series and no notice is answered with 400,
    not 404; and a response whose [Note] does not contain the words
    [API rate limit] is answered with 404, not 429. *)
Lemma information_is_answered_400 :
  no_series information_only = Normal true /\
  get information_only "Note" = Normal None /\
  status (snd (Server.after_wait jan5 "AAPL" information_only ∅)) = 400 /\
  no_series frequency_note = Normal true /\
  (exists text, get frequency_note "Note" = Normal (Some (JString text))) /\
  status (snd (Server.after_wait jan5 "AAPL" frequency_note ∅)) = 404.
Proof.
  repeat split; try (vm_compute; reflexivity).
  eexists. vm_compute. reflexivity.
Qed.

(** C1, amended: for a response body without a daily series whose [Note],
    when there is one, is a text, [server.js] answers 429 when the [Note]
    contains [API rate limit], otherwise 400 when there is a non-empty
    [Information] field, otherwise 404; [server_backup.js] answers 429
    when there is a non-empty [Note] or [Information] field, otherwise
    404. *)
Theorem no_series_status (now : Z) (symbol : string) (data : JSON)
    (cache : gmap string (NodeCache.Entry (list PricePoint))) (st : Backup.State)
    (note information : Value) :
  no_series data = Normal true ->
  get data "Note" = Normal note ->
  get data "Information" = Normal information ->
  (note = None \/ exists text, note = Some (JString text)) ->
  status (snd (Server.after_wait now symbol data cache)) =
    (if note_says_limit note then 429
     else if truthy_value information then 400 else 404) /\
  status (snd (Backup.after_wait now symbol data st)) =
    (if truthy_value note || truthy_value information then 429 else 404).
Proof.
  intros Hseries Hnote Hinfo Hshape.
  unfold Server.after_wait, Backup.after_wait. rewrite Hseries.
  unfold Server.no_series_response, Backup.no_series_response.
  rewrite Hnote, Hinfo. cbn [bind snd].
  split.
  - destruct Hshape as [-> | [text ->]]; cbn [note_says_limit].
    + cbn [bind]. destruct information as [i |]; cbn [truthy_value]; [| reflexivity].
      destruct (truthy i) eqn:Hi; [| reflexivity].
      destruct (apiError_truthy now i 400 Hi) as [shown ->]. reflexivity.
    + cbn [truthy Server.includes_rate_limit].
      destruct (String.eqb_spec text "") as [-> | Hne]; cbn [negb bind].
      * replace (Text.includes "API rate limit" "") with false by reflexivity.
        destruct information as [i |]; cbn [truthy_value]; [| reflexivity].
        destruct (truthy i) eqn:Hi; [| reflexivity].
        destruct (apiError_truthy now i 400 Hi) as [shown ->]. reflexivity.
      * destruct (Text.includes "API rate limit" text); [reflexivity |].
        destruct information as [i |]; cbn [truthy_value]; [| reflexivity].
        destruct (truthy i) eqn:Hi; [| reflexivity].
        destruct (apiError_truthy now i 400 Hi) as [shown ->]. reflexivity.
  - unfold or_else.
    destruct (truthy_value note) eqn:Hn; cbn [orb].
    + destruct note as [n |]; [| discriminate]. cbn [truthy_value] in Hn. rewrite Hn.
      destruct (apiError_truthy now n 429 Hn) as [shown ->]. reflexivity.
    + destruct information as [i |]; cbn [truthy_value]; [| reflexivity].
      destruct (truthy i) eqn:Hi; [| reflexivity].
      destruct (apiError_truthy now i 429 Hi) as [shown ->]. reflexivity.
Qed.

Lemma no_series_status_examples :
  (no_series rate_limit_note = Normal true /\
   status (snd (Server.after_wait jan5 "AAPL" rate_limit_note ∅)) = 429) /\
  (no_series (JObject []) = Normal true /\
   status (snd (Server.after_wait jan5 "AAPL" (JObject []) ∅)) = 404).
Proof.
  split; (split; [reflexivity |]).
  - exact (proj1 (no_series_status jan5 "AAPL" rate_limit_note ∅
                    {| Backup.cache := ∅; Backup.apiUsage := ∅ |}
                    (Some (JString "You have reached the API rate limit.")) None
                    eq_refl eq_refl eq_refl
                    (or_intror (ex_intro _ "You have reached the API rate limit." eq_refl)))).
  - exact (proj1 (no_series_status jan5 "AAPL" (JObject []) ∅
                    {| Backup.cache := ∅; Backup.apiUsage := ∅ |}
                    None None eq_refl eq_refl eq_refl (or_introl eq_refl))).
Defined.

(** ** The cache is written on success only *)

Lemma step_reject_store {St : Type} (h : Handler St) (w w' : World St) (now : Z) (id : nat) :
  step h w now (Reject id) = Some w' -> store w' = store w.
Proof.
  unfold step. destruct (now <? clock w); [discriminate |].
  destruct (tasks w !! id) as [[symbol | symbol data armed] |]; try discriminate.
  intros [= <-]. reflexivity.
Qed.

(** C10: when the provider's response has no daily series (answered with
    429, 400, 404 or, when reading it throws, 500) the cache is left as
    it was, and so it is when the provider call rejects; the cache
    differs after the handler's last piece only if the response had the
    series and the transformation returned one, which is then what was
    stored. The same holds for the earlier variant. *)
Theorem failures_keep_cache (now : Z) (symbol : string) (data : JSON)
    (cache : gmap string (NodeCache.Entry (list PricePoint))) (st : Backup.State) :
  (no_series data <> Normal false ->
     fst (Server.after_wait now symbol data cache) = cache /\
     fst (Backup.after_wait now symbol data st) = st) /\
  (forall w w' id, step server w now (Reject id) = Some w' -> store w' = store w) /\
  (forall w w' id, step backup w now (Reject id) = Some w' -> store w' = store w) /\
  (fst (Server.after_wait now symbol data cache) <> cache ->
     exists series, no_series data = Normal false /\ transform data = Normal series /\
       fst (Server.after_wait now symbol data cache) =
         NodeCache.set stdTTL now symbol series cache) /\
  (fst (Backup.after_wait now symbol data st) <> st ->
     exists series, no_series data = Normal false /\ transform data = Normal series /\
       Backup.cache (fst (Backup.after_wait now symbol data st)) =
         NodeCache.set stdTTL now symbol series (Backup.cache st)).
Proof.
  unfold Server.after_wait, Backup.after_wait.
  repeat split.
  - destruct (no_series data) as [[|] | e]; [reflexivity | congruence | reflexivity].
  - destruct (no_series data) as [[|] | e]; [reflexivity | congruence | reflexivity].
  - intros w w' id. apply step_reject_store.
  - intros w w' id. apply step_reject_store.
  - destruct (no_series data) as [[|] | e]; cbn [fst]; try congruence.
    destruct (transform data) as [series | e]; cbn [fst]; try congruence.
    intros _. exists series. repeat split.
  - destruct (no_series data) as [[|] | e]; cbn [fst]; try congruence.
    destruct (transform data) as [series | e]; cbn [fst]; try congruence.
    intros _. exists series. repeat split.
Qed.

(** The cache does change on success: after the payload [three_days]
    the series is served from the cache, oldest day first, and the
    answer built for the first request is a JSON text. *)
Example three_days_are_cached :
  let series := [{| date := "2024-01-02"; close := Dec false 1856 (-1) |};
                 {| date := "2024-01-03"; close := Dec false 1862 (-1) |};
                 {| date := "2024-01-04"; close := Dec false 1849 (-1) |}] in
  let '(cache, answer) := Server.after_wait jan5 "AAPL" three_days ∅ in
  cache <> ∅ /\
  status answer = 200 /\
  (exists text, body answer = Literal text /\ is_JSON text = true) /\
  Server.on_request (jan5 + 1000) "aapl" cache =
    (cache, Respond (Server.cached_response (jan5 + 1000) "AAPL" series)).
Proof.
  cbv zeta.
  destruct (Server.after_wait jan5 "AAPL" three_days ∅) as [cache answer] eqn:E.
  assert (Hc : cache = fst (Server.after_wait jan5 "AAPL" three_days ∅)) by now rewrite E.
  assert (Ha : answer = snd (Server.after_wait jan5 "AAPL" three_days ∅)) by now rewrite E.
  subst cache answer. clear E.
  split; [| split; [| split]].
  - intros H. apply (f_equal (fun m => m !! "AAPL")) in H. vm_compute in H. discriminate.
  - vm_compute. reflexivity.
  - eexists. split; vm_compute; reflexivity.
  - vm_compute. reflexivity.
Qed.

(** ** Entries without a closing price *)

(** C3 fails on the code. For the payload [missing_close], whose entry
    for 2024-01-03 has no closing price, [server.js] computes the point
    [{ date: "2024-01-03", close: NaN }], stores the series with that
    point in the cache, and only then fails, because [JSON.parse] refuses
    the text it has built: the answer has status 500 and names neither
    the index nor the date. The next request within the hour is served
    the cached series, [NaN] point included (its [close] written as
    [null]), with status 200. The earlier variant answers 200 with that
    point at once. *)
Theorem missing_close_is_stored_and_served :
  let bad := [{| date := "2024-01-02"; close := Dec false 1856 (-1) |};
              {| date := "2024-01-03"; close := NaN |}] in
  let cache := fst (Server.after_wait jan5 "AAPL" missing_close ∅) in
  transform missing_close = Normal bad /\
  (exists text, Server.items_text 0 2 bad = Normal text) /\
  snd (Server.after_wait jan5 "AAPL" missing_close ∅) =
    {| status := 500;
       body := Stringified (JObject [("status", JString "error");
                                     ("error", JString "Failed to construct valid response");
                                     ("details", JString (Exn_message SyntaxError))]) |} /\
  snd (NodeCache.get (jan5 + 1000) "AAPL" cache) = Some bad /\
  snd (Server.on_request (jan5 + 1000) "AAPL" cache) =
    Respond (Server.cached_response (jan5 + 1000) "AAPL" bad) /\
  status (Server.cached_response (jan5 + 1000) "AAPL" bad) = 200 /\
  served_points (Server.cached_response (jan5 + 1000) "AAPL" bad) =
    Some (JArray [JObject [("date", JString "2024-01-02"); ("close", JNumber (Dec false 1856 (-1)))];
                  JObject [("date", JString "2024-01-03"); ("close", JNumber NaN)]]) /\
  snd (Backup.after_wait jan5 "AAPL" missing_close {| Backup.cache := ∅; Backup.apiUsage := ∅ |}) =
    apiSuccess jan5 (Backup.payload jan5 "AAPL" bad false).
Proof.
  cbv zeta.
  split; [vm_compute; reflexivity |].
  split; [eexists; vm_compute; reflexivity |].
  repeat split; vm_compute; reflexivity.
Qed.

(** ** The shape of the error answers *)

(** C9 fails on the code. Every answer made with [res.apiError] has the
    fields [status], [error] and [timestamp], but the answer that
    [server.js] gives when it cannot build the response text (the case of
    a malformed entry) is made by hand and has [status], [error] and
    [details], and no [timestamp]. *)
Theorem construction_failure_lacks_timestamp :
  let answer := snd (Server.after_wait jan5 "AAPL" missing_close ∅) in
  status answer = 500 /\
  field "status" answer = Some (JString "error") /\
  field "error" answer = Some (JString "Failed to construct valid response") /\
  field "details" answer = Some (JString (Exn_message SyntaxError)) /\
  field "timestamp" answer = None /\
  (forall now shown statusCode,
      field "status" (error_response now shown statusCode) = Some (JString "error") /\
      field "error" (error_response now shown statusCode) = Some shown /\
      field "timestamp" (error_response now shown statusCode) = Some (JString (toISOString now))).
Proof.
  cbv zeta. repeat split; vm_compute; reflexivity.
Qed.

(** ** Dates denote days one to one *)

Lemma days_from_civil_eq (y m d : Z) :
  days_from_civil y m d =
    year_start (if m <=? 2 then y - 1 else y)
    + (153 * ((m + 9) mod 12) + 2) / 5 + d - 1 - 719468.
Proof.
  unfold days_from_civil, year_start. cbv zeta.
  generalize (if m <=? 2 then y - 1 else y). intros z.
  generalize ((153 * ((m + 9) mod 12) + 2) / 5). intros k.
  Z.div_mod_to_equations. lia.
Qed.

Lemma is_leap_true (y : Z) :
  is_leap y = true <-> (y mod 4 = 0 /\ y mod 100 <> 0) \/ y mod 400 = 0.
Proof.
  unfold is_leap.
  rewrite orb_true_iff, andb_true_iff, negb_true_iff, !Z.eqb_eq, Z.eqb_neq. tauto.
Qed.

Lemma year_length (y : Z) :
  year_start (y + 1) - year_start y = if is_leap (y + 1) then 366 else 365.
Proof.
  destruct (is_leap (y + 1)) eqn:E.
  - apply is_leap_true in E. unfold year_start. Z.div_mod_to_equations. lia.
  - assert (H : ~ (((y + 1) mod 4 = 0 /\ (y + 1) mod 100 <> 0) \/ (y + 1) mod 400 = 0)).
    { rewrite <- is_leap_true. congruence. }
    unfold year_start. Z.div_mod_to_equations. lia.
Qed.

Lemma year_start_mono (a b : Z) : a <= b -> year_start a <= year_start b.
Proof. unfold year_start. Z.div_mod_to_equations. lia. Qed.

Lemma days_in_year (y m d : Z) :
  calendar_day y m d ->
  year_start (if m <=? 2 then y - 1 else y) <= days_from_civil y m d + 719468
    < year_start ((if m <=? 2 then y - 1 else y) + 1).
Proof.
  intros [Hm Hd]. rewrite days_from_civil_eq.
  pose proof (year_length (if m <=? 2 then y - 1 else y)) as Hlen.
  each_month m; cbn in Hd, Hlen |- *;
    try (replace (y - 1 + 1) with y in * by lia);
    destruct (is_leap _) in *; Z.div_mod_to_equations; lia.
Qed.

Lemma days_from_civil_injective (y1 m1 d1 y2 m2 d2 : Z) :
  calendar_day y1 m1 d1 -> calendar_day y2 m2 d2 ->
  days_from_civil y1 m1 d1 = days_from_civil y2 m2 d2 ->
  y1 = y2 /\ m1 = m2 /\ d1 = d2.
Proof.
  intros H1 H2 Heq.
  pose proof (days_in_year y1 m1 d1 H1) as B1.
  pose proof (days_in_year y2 m2 d2 H2) as B2.
  rewrite Heq in B1.
  set (z1 := if m1 <=? 2 then y1 - 1 else y1) in *.
  set (z2 := if m2 <=? 2 then y2 - 1 else y2) in *.
  assert (Hz : z1 = z2).
  { destruct (Z.lt_trichotomy z1 z2) as [Hlt | [Heqz | Hgt]]; [exfalso | exact Heqz | exfalso].
    - pose proof (year_start_mono (z1 + 1) z2 ltac:(lia)). lia.
    - pose proof (year_start_mono (z2 + 1) z1 ltac:(lia)). lia. }
  rewrite !days_from_civil_eq in Heq. fold z1 z2 in Heq. rewrite Hz in Heq.
  destruct H1 as [Hm1 Hd1], H2 as [Hm2 Hd2].
  unfold days_in_month in Hd1, Hd2. subst z1 z2.
  each_month m1; each_month m2; cbn in Hz, Hd1, Hd2;
    try (destruct (is_leap y1)); try (destruct (is_leap y2));
    Z.div_mod_to_equations; lia.
Qed.

Lemma digit_range (c : ascii) : is_digit c = true -> 0 <= digit_value c <= 9.
Proof.
  unfold is_digit, digit_value. rewrite andb_true_iff, !Z.leb_le. lia.
Qed.

Lemma digit_value_injective (c c' : ascii) : digit_value c = digit_value c' -> c = c'.
Proof.
  unfold digit_value, code. intros H.
  assert (Hn : nat_of_ascii c = nat_of_ascii c') by lia.
  rewrite <- (ascii_nat_embedding c), <- (ascii_nat_embedding c'). now rewrite Hn.
Qed.

Lemma Date_parse_inversion (s : string) (t : Z) :
  Date_parse s = Some t ->
  exists y1 y2 y3 y4 m1 m2 d1 d2,
    s = String y1 (String y2 (String y3 (String y4 (String "-"
          (String m1 (String m2 (String "-" (String d1 (String d2 EmptyString))))))))) /\
    forallb is_digit [y1; y2; y3; y4; m1; m2; d1; d2] = true /\
    calendar_day (digits_value (String y1 (String y2 (String y3 (String y4 EmptyString)))))
                 (digits_value (String m1 (String m2 EmptyString)))
                 (digits_value (String d1 (String d2 EmptyString))) /\
    t = days_from_civil
          (digits_value (String y1 (String y2 (String y3 (String y4 EmptyString)))))
          (digits_value (String m1 (String m2 EmptyString)))
          (digits_value (String d1 (String d2 EmptyString))) * ms_per_day.
Proof.
  intros H.
  destruct s as [| y1 [| y2 [| y3 [| y4 [| c5 s]]]]]; try discriminate.
  destruct c5 as [[] [] [] [] [] [] [] []]; try discriminate.
  destruct s as [| m1 [| m2 [| c8 s]]]; try discriminate.
  destruct c8 as [[] [] [] [] [] [] [] []]; try discriminate.
  destruct s as [| d1 [| d2 [| c s]]]; try discriminate.
  unfold Date_parse in H.
  destruct (forallb is_digit [y1; y2; y3; y4; m1; m2; d1; d2]) eqn:Hdigits; [| discriminate].
  match type of H with
  | (if ?c then _ else _) = _ => destruct c eqn:Hrange; [| discriminate]
  end.
  injection H as <-.
  exists y1, y2, y3, y4, m1, m2, d1, d2.
  repeat split; try reflexivity; try assumption.
  all: rewrite !andb_true_iff, !Z.leb_le in Hrange; lia.
Qed.

Lemma Date_parse_injective (s s' : string) (t : Z) :
  Date_parse s = Some t -> Date_parse s' = Some t -> s = s'.
Proof.
  intros H H'.
  apply Date_parse_inversion in H as (y1 & y2 & y3 & y4 & m1 & m2 & d1 & d2 & -> & Hdig & Hday & Ht).
  apply Date_parse_inversion in H' as (a1 & a2 & a3 & a4 & b1 & b2 & c1 & c2 & -> & Hdig' & Hday' & Ht').
  assert (Hdays : days_from_civil
            (digits_value (String y1 (String y2 (String y3 (String y4 EmptyString)))))
            (digits_value (String m1 (String m2 EmptyString)))
            (digits_value (String d1 (String d2 EmptyString))) =
          days_from_civil
            (digits_value (String a1 (String a2 (String a3 (String a4 EmptyString)))))
            (digits_value (String b1 (String b2 EmptyString)))
            (digits_value (String c1 (String c2 EmptyString)))).
  { unfold ms_per_day in Ht, Ht'. lia. }
  destruct (days_from_civil_injective _ _ _ _ _ _ Hday Hday' Hdays) as (Hy & Hm & Hd).
  cbn [forallb] in Hdig, Hdig'.
  repeat (apply andb_true_iff in Hdig as [?%digit_range Hdig]).
  repeat (apply andb_true_iff in Hdig' as [?%digit_range Hdig']).
  unfold digits_value in Hy, Hm, Hd. cbn [digits_value_from] in Hy, Hm, Hd.
  repeat f_equal; apply digit_value_injective; lia.
Qed.


(** ** The order of the series *)

Lemma insert_sorted_perm {A : Type} (cmp : A -> A -> option Z) (x : A) (l : list A) :
  Permutation (insert_sorted cmp x l) (x :: l).
Proof.
  induction l as [| y l IH]; simpl; [reflexivity |].
  destruct (goes_after cmp x y); [| reflexivity].
  rewrite IH. apply perm_swap.
Qed.

Lemma sort_perm {A : Type} (cmp : A -> A -> option Z) (l : list A) :
  Permutation (sort cmp l) l.
Proof.
  induction l as [| x l IH]; simpl; [reflexivity |].
  rewrite insert_sorted_perm. now apply perm_skip.
Qed.

Lemma goes_after_by_date (a b : PricePoint) (x y : Z) :
  time a = Some x -> time b = Some y -> goes_after by_date a b = (y <? x).
Proof.
  unfold goes_after, by_date, date_difference, time. intros -> ->.
  destruct (Z.ltb_spec y x); [apply Z.ltb_lt | apply Z.ltb_ge]; lia.
Qed.

Lemma not_after_trans : Relations_1.Transitive not_after.
Proof.
  intros a b c (x & y & Ha & Hb & Hxy) (y' & z & Hb' & Hc & Hyz).
  rewrite Hb in Hb'. injection Hb' as <-.
  exists x, z. repeat split; [assumption | assumption | lia].
Qed.

Lemma insert_sorted_order (p : PricePoint) (l : list PricePoint) :
  is_Some (time p) -> Forall (fun q => is_Some (time q)) l ->
  Sorted not_after l -> Sorted not_after (insert_sorted by_date p l).
Proof.
  intros [x Hx] Hall Hsorted.
  induction Hsorted as [| q l Hl IH Hhd]; simpl.
  - repeat constructor.
  - apply Forall_cons_iff in Hall as [[y Hy] Hall].
    rewrite (goes_after_by_date p q x y Hx Hy).
    destruct (Z.ltb_spec y x) as [Hlt | Hge].
    + constructor; [now apply IH |].
      destruct l as [| r l]; simpl.
      * constructor. exists y, x. repeat split; [assumption | assumption | lia].
      * apply Forall_cons_iff in Hall as [[z Hz] _].
        rewrite (goes_after_by_date p r x z Hx Hz).
        destruct (z <? x); constructor.
        -- now inversion Hhd.
        -- exists y, x. repeat split; [assumption | assumption | lia].
    + constructor; [now constructor |].
      constructor. exists x, y. repeat split; [assumption | assumption | lia].
Qed.

Lemma sort_order (l : list PricePoint) :
  Forall (fun q => is_Some (time q)) l -> Sorted not_after (sort by_date l).
Proof.
  induction l as [| p l IH]; simpl; intros Hall; [constructor |].
  apply Forall_cons_iff in Hall as [Hp Hall].
  apply insert_sorted_order; [assumption | | now apply IH].
  rewrite (sort_perm by_date l). assumption.
Qed.

Lemma strictly_sorted (l : list PricePoint) :
  StronglySorted not_after l -> NoDup (map time l) -> StronglySorted before l.
Proof.
  induction 1 as [| p l Hl IH Hhd]; simpl; intros Hnd; [constructor |].
  apply NoDup_cons in Hnd as [Hnotin Hnd].
  constructor; [now apply IH |].
  rewrite Forall_forall in Hhd |- *. intros q Hq.
  destruct (Hhd q Hq) as (x & y & Hx & Hy & Hle).
  exists x, y. repeat split; [assumption | assumption |].
  destruct (Z.eq_dec x y) as [-> | Hne]; [| lia].
  exfalso. apply Hnotin. rewrite Hx, <- Hy.
  apply list_elem_of_In, in_map, list_elem_of_In. assumption.
Qed.

Lemma assoc_text (fields : list (string * JSON)) (k : string) (x : JSON) :
  forallb (fun kv => match snd kv with JString _ => true | _ => false end) fields = true ->
  assoc k fields = Some x -> exists text, x = JString text.
Proof.
  induction fields as [| [k' y] fields IH]; simpl; [discriminate |].
  intros Hall. apply andb_true_iff in Hall as [Hy Hall].
  destruct (String.eqb k k').
  - intros [= <-]. destruct y; try discriminate. eexists; reflexivity.
  - now apply IH.
Qed.

Lemma parseFloat_text (text : string) :
  parseFloat (Some (JString text)) = Normal (parseFloat_string text).
Proof. reflexivity. Qed.

Lemma closing_price_text (k : string) (entry : JSON) :
  text_fields entry = true ->
  exists c, closing_price (k, entry) = Normal {| date := k; close := c |}.
Proof.
  destruct entry as [| | | | | fields]; simpl; try discriminate. intros Hall.
  unfold closing_price. cbn [get bind].
  assert (Hprice : forall o : Value,
             (forall x, o = Some x -> exists text, x = JString text) ->
             exists c, parseFloat o = Normal c).
  { intros [x |] Hx.
    - destruct (Hx x eq_refl) as [text ->]. eexists. apply parseFloat_text.
    - eexists. reflexivity. }
  destruct (truthy_value (assoc "4. close" fields)); cbn [bind].
  - destruct (Hprice (assoc "4. close" fields)) as [c ->];
      [intros x Hx; exact (assoc_text _ _ _ Hall Hx) |].
    exists c. reflexivity.
  - destruct (Hprice (assoc "5. adjusted close" fields)) as [c ->];
      [intros x Hx; exact (assoc_text _ _ _ Hall Hx) |].
    exists c. reflexivity.
Qed.

Lemma mapM_closing_price (fields : list (string * JSON)) :
  Forall (fun kv => text_fields (snd kv) = true) fields ->
  exists points, mapM closing_price fields = Normal points /\
                 map date points = map fst fields.
Proof.
  induction 1 as [| [k entry] fields Hentry _ (points & Hpoints & Hdates)]; cbn [mapM].
  - exists []. split; reflexivity.
  - destruct (closing_price_text k entry Hentry) as [c ->]. cbn [bind].
    rewrite Hpoints. cbn [bind].
    exists ({| date := k; close := c |} :: points). simpl. now rewrite Hdates.
Qed.

Lemma NoDup_dates (keys : list string) :
  Forall (fun k => is_Some (Date_parse k)) keys -> NoDup keys -> NoDup (map Date_parse keys).
Proof.
  induction 1 as [| k keys [t Ht] Hkeys IH]; simpl; intros Hnd; [constructor |].
  apply NoDup_cons in Hnd as [Hnotin Hnd].
  apply NoDup_cons. split; [| now apply IH].
  intros Hin. apply list_elem_of_In, in_map_iff in Hin as (k' & Heq & Hk').
  rewrite Ht in Heq.
  apply Hnotin. rewrite (Date_parse_injective k k' t Ht Heq).
  now apply list_elem_of_In.
Qed.

(** C6: for a payload whose daily series has, for every day, an object of
    text fields under a key that is a date, no key occurring twice, the
    transformation returns a series; its points are in strictly ascending
    order of date (so no date occurs twice) and their dates are exactly
    the keys of the payload. *)
Theorem series_is_ascending (top fields : list (string * JSON)) :
  assoc "Time Series (Daily)" top = Some (JObject fields) ->
  Forall (fun kv => text_fields (snd kv) = true) fields ->
  Forall (fun kv => is_Some (Date_parse (fst kv))) fields ->
  NoDup (map fst fields) ->
  exists series,
    transform (JObject top) = Normal series /\
    StronglySorted before series /\
    Permutation (map date series) (map fst fields).
Proof.
  intros Hdaily Hentries Hdates Hkeysnd.
  assert (Hnodup : NoDup (map (fun kv => Date_parse (fst kv)) fields)).
  { rewrite <- (map_map fst Date_parse). apply NoDup_dates; [| exact Hkeysnd].
    clear -Hdates. induction Hdates; simpl; constructor; assumption. }
  destruct (mapM_closing_price fields Hentries) as (points & Hpoints & Hkeys).
  exists (sort by_date points).
  assert (Htimes : map time points = map (fun kv => Date_parse (fst kv)) fields).
  { unfold time. rewrite <- (map_map date Date_parse), Hkeys. apply map_map. }
  split; [| split].
  - unfold transform. cbn [get bind]. rewrite Hdaily. cbn [truthy_value truthy bind].
    unfold closingPrices. cbn [Object_entries bind]. rewrite Hpoints. reflexivity.
  - apply strictly_sorted.
    + apply Sorted_StronglySorted; [exact not_after_trans |].
      apply sort_order.
      apply Forall_forall. intros q Hq.
      assert (Hin : time q ∈ map (fun kv => Date_parse (fst kv)) fields).
      { rewrite <- Htimes. apply list_elem_of_In, in_map, list_elem_of_In, Hq. }
      apply list_elem_of_In, in_map_iff in Hin as (kv & <- & Hkv).
      rewrite Forall_forall in Hdates. apply Hdates, list_elem_of_In, Hkv.
    + rewrite (Permutation_map time (sort_perm by_date points)), Htimes. exact Hnodup.
  - rewrite (Permutation_map date (sort_perm by_date points)), Hkeys. reflexivity.
Qed.

Lemma series_is_ascending_three_days :
  exists series,
    transform three_days = Normal series /\
    StronglySorted before series /\
    Permutation (map date series) ["2024-01-04"; "2024-01-03"; "2024-01-02"].
Proof.
  refine (series_is_ascending
            [("Meta Data", JObject [("2. Symbol", JString "AAPL")]);
             ("Time Series (Daily)", JObject [
                ("2024-01-04", JObject [("4. close", JString "184.9")]);
                ("2024-01-03", JObject [("4. close", JString "186.2")]);
                ("2024-01-02", JObject [("4. close", JString "185.6")])])]
            [("2024-01-04", JObject [("4. close", JString "184.9")]);
             ("2024-01-03", JObject [("4. close", JString "186.2")]);
             ("2024-01-02", JObject [("4. close", JString "185.6")])]
            eq_refl _ _ _).
  - repeat constructor.
  - repeat constructor; eexists; vm_compute; reflexivity.
  - apply (bool_decide_unpack _). vm_compute. exact I.
Defined.

(** ** The spacing of provider calls *)

Lemma consistent_boot {St : Type} (s : St) : consistent (boot s).
Proof.
  unfold consistent, boot; cbn.
  repeat split; try (intros; apply lookup_empty); intros; contradiction.
Qed.

Lemma task_seen {St : Type} (w : World St) (id : nat) (task : Task) :
  consistent w -> tasks w !! id = Some task -> (id < next w)%nat.
Proof.
  intros (Hfresh & _) Htask.
  destruct (le_lt_dec (next w) id) as [Hle | Hlt]; [| exact Hlt].
  rewrite (Hfresh id Hle) in Htask. discriminate.
Qed.

Lemma consistent_step {St : Type} (h : Handler St) (w w' : World St) (now : Z) (ev : Event) :
  consistent w -> step h w now ev = Some w' -> consistent w'.
Proof.
  intros Hw Hstep. pose proof Hw as (Hfresh & Hans & Hcalls & Hret).
  unfold step in Hstep.
  destruct (Z.ltb_spec now (clock w)) as [| Hclock]; [discriminate |].
  assert (Hpast : forall c, In c (calls w) -> (caller c < next w)%nat /\ sent c <= now).
  { intros c Hc. destruct (Hcalls c Hc). split; [assumption | lia]. }
  destruct ev as [raw | id data | id | id].
  - destruct (start h now raw (store w)) as [s' [resp | symbol]];
      injection Hstep as <-; unfold consistent; cbn.
    + split; [| split; [| split]].
      * intros id Hid. apply Hfresh. lia.
      * intros a [<- | Ha]; cbn.
        -- split; [lia | apply Hfresh; lia].
        -- destruct (Hans a Ha). split; [lia | assumption].
      * intros c Hc. destruct (Hpast c Hc). split; [lia | assumption].
      * intros id t Hin. destruct (Hret id t Hin) as (Hlt & Hsent & Hm).
        split; [lia |]. split; [exact Hsent |].
        destruct (tasks w !! id) as [[] |]; try assumption.
        intros a [<- | Ha] Heq; cbn in *; [lia | now apply Hm].
    + split; [| split; [| split]].
      * intros id Hid. rewrite lookup_insert_ne by lia. apply Hfresh. lia.
      * intros a Ha. destruct (Hans a Ha). split; [lia |].
        rewrite lookup_insert_ne by lia. assumption.
      * intros c [<- | Hc]; cbn; [split; lia |].
        destruct (Hpast c Hc). split; [lia | assumption].
      * intros id t Hin. destruct (Hret id t Hin) as (Hlt & Hsent & Hm).
        split; [lia |]. split.
        -- intros c [<- | Hc] Heq; cbn in *; [lia | now apply Hsent].
        -- rewrite lookup_insert_ne by lia. exact Hm.
  - destruct (tasks w !! id) as [[symbol | symbol d armed] |] eqn:Htask; try discriminate.
    injection Hstep as <-. unfold consistent; cbn.
    pose proof (task_seen w id _ Hw Htask) as Hseen.
    split; [| split; [| split]].
    + intros id' Hid'. rewrite lookup_insert_ne by lia. now apply Hfresh.
    + intros a Ha. destruct (Hans a Ha) as [Hlt Hnone]. split; [exact Hlt |].
      rewrite lookup_insert_ne by congruence. exact Hnone.
    + exact Hpast.
    + intros id' t [[= <- <-] | Hin].
      * split; [exact Hseen |]. split; [intros c Hc _; now apply Hpast |].
        rewrite lookup_insert_eq. reflexivity.
      * destruct (Hret id' t Hin) as (Hlt & Hsent & Hm).
        split; [exact Hlt |]. split; [exact Hsent |].
        destruct (decide (id = id')) as [<- | Hne].
        -- rewrite Htask in Hm. contradiction.
        -- rewrite lookup_insert_ne by exact Hne. exact Hm.
  - destruct (tasks w !! id) as [[symbol | symbol d armed] |] eqn:Htask; try discriminate.
    injection Hstep as <-. unfold consistent; cbn.
    pose proof (task_seen w id _ Hw Htask) as Hseen.
    split; [| split; [| split]].
    + intros id' Hid'. rewrite lookup_delete_ne by lia. now apply Hfresh.
    + intros a [<- | Ha]; cbn.
      * split; [exact Hseen | apply lookup_delete_eq].
      * destruct (Hans a Ha) as [Hlt Hnone]. split; [exact Hlt |].
        rewrite lookup_delete_ne by congruence. exact Hnone.
    + exact Hpast.
    + intros id' t Hin. destruct (Hret id' t Hin) as (Hlt & Hsent & Hm).
      split; [exact Hlt |]. split; [exact Hsent |].
      destruct (decide (id = id')) as [<- | Hne].
      * rewrite Htask in Hm. contradiction.
      * rewrite lookup_delete_ne by exact Hne.
        destruct (tasks w !! id') as [[] |]; try assumption.
        intros a [<- | Ha] Heq; cbn in *; [congruence | now apply Hm].
  - destruct (tasks w !! id) as [[symbol | symbol d armed] |] eqn:Htask; try discriminate.
    destruct (Z.ltb_spec now (armed + delay)) as [| Hlate]; [discriminate |].
    destruct (resume h now symbol d (store w)) as [s' resp].
    injection Hstep as <-. unfold consistent; cbn.
    pose proof (task_seen w id _ Hw Htask) as Hseen.
    split; [| split; [| split]].
    + intros id' Hid'. rewrite lookup_delete_ne by lia. now apply Hfresh.
    + intros a [<- | Ha]; cbn.
      * split; [exact Hseen | apply lookup_delete_eq].
      * destruct (Hans a Ha) as [Hlt Hnone]. split; [exact Hlt |].
        rewrite lookup_delete_ne by congruence. exact Hnone.
    + exact Hpast.
    + intros id' t Hin. destruct (Hret id' t Hin) as (Hlt & Hsent & Hm).
      split; [exact Hlt |]. split; [exact Hsent |].
      destruct (decide (id = id')) as [<- | Hne].
      * rewrite Htask in Hm. subst armed. rewrite lookup_delete_eq.
        intros a [<- | Ha] Heq; cbn in *; [lia |].
        destruct (Hans a Ha) as [_ Hnone]. congruence.
      * rewrite lookup_delete_ne by exact Hne.
        destruct (tasks w !! id') as [[] |]; try assumption.
        intros a [<- | Ha] Heq; cbn in *; [congruence | now apply Hm].
Qed.

Lemma consistent_run {St : Type} (h : Handler St) (events : list (Z * Event)) (w w' : World St) :
  consistent w -> run h w events = Some w' -> consistent w'.
Proof.
  revert w. induction events as [| [now ev] events IH]; simpl; intros w Hw Hrun.
  - now injection Hrun as <-.
  - destruct (step h w now ev) as [w1 |] eqn:Hstep; [| discriminate].
    exact (IH w1 (consistent_step h w w1 now ev Hw Hstep) Hrun).
Qed.

(** C2, as the claim has it, fails: the handler calls the provider as
    soon as a request misses the cache, and nothing delays the call of a
    request that arrives while another one is pending. Two requests that
    arrive one millisecond apart have their provider calls sent one
    millisecond apart, both in flight together; and after a provider
    call that rejects, which is answered without the wait, the next
    request calls the provider at once. *)
Lemma concurrent_calls_are_not_spaced :
  (exists w,
      run server (boot ∅) [(0, Request "AAPL"); (1, Request "MSFT")] = Some w /\
      calls w = [{| caller := 1%nat; target := "MSFT"; sent := 1 |};
                 {| caller := 0%nat; target := "AAPL"; sent := 0 |}] /\
      tasks w !! 0%nat = Some (AwaitingProvider "AAPL") /\
      tasks w !! 1%nat = Some (AwaitingProvider "MSFT") /\
      ~ spaced 13000 (calls w)) /\
  (exists w,
      run server (boot ∅) [(0, Request "AAPL"); (500, Reject 0%nat); (501, Request "AAPL")] = Some w /\
      calls w = [{| caller := 1%nat; target := "AAPL"; sent := 501 |};
                 {| caller := 0%nat; target := "AAPL"; sent := 0 |}] /\
      ~ spaced 13000 (calls w)).
Proof.
  split; eexists; (split; [vm_compute; reflexivity |]); cbn [calls].
  - repeat split; try (vm_compute; reflexivity).
    intros H.
    specialize (H {| caller := 1%nat; target := "MSFT"; sent := 1 |}
                  {| caller := 0%nat; target := "AAPL"; sent := 0 |}
                  (or_introl eq_refl) (or_intror (or_introl eq_refl))).
    cbn in H. lia.
  - split; [reflexivity |].
    intros H.
    specialize (H {| caller := 1%nat; target := "AAPL"; sent := 501 |}
                  {| caller := 0%nat; target := "AAPL"; sent := 0 |}
                  (or_introl eq_refl) (or_intror (or_introl eq_refl))).
    cbn in H. lia.
Qed.

(** C2, amended: the wait of 13 seconds comes after the provider call,
    inside the handler of the request that made it. In every run of the
    event loop, a request whose provider call resolved at time [t] sent
    that call no later than [t] and is answered no earlier than
    [t + 13000]; hence a provider call sent at or after that answer (as
    for a client that sends its next request once the previous one is
    answered) starts at least 13 seconds after the earlier call has
    ended, and the two calls do not overlap. *)
Theorem answer_waits_after_call {St : Type} (h : Handler St) (s : St)
    (events : list (Z * Event)) (w : World St) (id : nat) (t : Z) (a : Answer) :
  run h (boot s) events = Some w ->
  In (id, t) (returned w) -> In a (answers w) -> asker a = id ->
  (forall c, In c (calls w) -> caller c = id -> sent c <= t) /\
  t + 13000 <= answered a /\
  (forall c, In c (calls w) -> answered a <= sent c -> t + 13000 <= sent c).
Proof.
  intros Hrun Hret Hans Hid.
  destruct (consistent_run h events (boot s) w (consistent_boot s) Hrun) as (_ & Ha & _ & Hr).
  destruct (Hr id t Hret) as (_ & Hsent & Hm).
  destruct (Ha a Hans) as [_ Hnone]. rewrite Hid in Hnone. rewrite Hnone in Hm.
  pose proof (Hm a Hans Hid) as Hwait. unfold delay in Hwait.
  split; [exact Hsent |]. split; [exact Hwait |]. intros c _ Hc. lia.
Qed.

Lemma answer_waits_after_call_example :
  exists w a,
    run server (boot ∅) one_after_another = Some w /\
    In (0%nat, 800) (returned w) /\ In a (answers w) /\ asker a = 0%nat /\
    800 + 13000 <= answered a.
Proof.
  eassert (Hrun : run server (boot ∅) one_after_another = Some _)
    by (vm_compute; reflexivity).
  match type of Hrun with
  | _ = Some ?w =>
      assert (Hret : In (0%nat, 800) (returned w)) by (left; reflexivity);
      eassert (Hans : In _ (answers w)) by (left; reflexivity);
      match type of Hans with
      | In ?a _ =>
          exists w, a;
          exact (conj Hrun (conj Hret (conj Hans (conj eq_refl
                   (proj1 (proj2 (answer_waits_after_call server ∅ one_after_another w
                                    0%nat 800 a Hrun Hret Hans eq_refl)))))))
      end
  end.
Defined.

(** * Further properties of the two variants *)

Lemma get_absent {V : Type} (now : Z) (key : string) (data : gmap string (NodeCache.Entry V)) :
  (forall e, data !! key = Some e -> NodeCache.t e <> 0 /\ NodeCache.t e < now) ->
  NodeCache.get now key data = (delete key data, None).
Proof.
  intros H. unfold NodeCache.get, NodeCache.expired.
  destruct (data !! key) as [e |] eqn:He.
  - destruct (H e eq_refl) as [Hnz Hlt].
    replace (NodeCache.t e =? 0) with false by (symmetry; apply Z.eqb_neq; exact Hnz).
    replace (NodeCache.t e <? now) with true by (symmetry; apply Z.ltb_lt; exact Hlt).
    reflexivity.
  - now rewrite delete_id.
Qed.

(** X1: for a raw symbol that validates and whose cache entry is absent
    or has expired, the handler goes on to the provider call for the
    upper-cased symbol; the expired entry is removed, and the earlier
    variant records the call in its usage counter before it is made. *)
Theorem cache_miss_calls_provider (now : Z) (raw : string)
    (cache : gmap string (NodeCache.Entry (list PricePoint))) (usage : gmap string Backup.Usage) :
  validateStockSymbol (toUpperCase raw) = true ->
  (forall e, cache !! toUpperCase raw = Some e -> NodeCache.t e <> 0 /\ NodeCache.t e < now) ->
  Server.on_request now raw cache =
    (delete (toUpperCase raw) cache, CallProvider (toUpperCase raw)) /\
  Backup.on_request now raw {| Backup.cache := cache; Backup.apiUsage := usage |} =
    ({| Backup.cache := delete (toUpperCase raw) cache;
        Backup.apiUsage := Backup.trackApiUsage now usage |},
     CallProvider (toUpperCase raw)).
Proof.
  intros Hvalid Hgone.
  unfold Server.on_request, Backup.on_request. rewrite Hvalid. cbn [negb Backup.cache Backup.apiUsage].
  rewrite (get_absent now _ cache Hgone). split; reflexivity.
Qed.

Lemma cache_miss_calls_provider_example :
  Server.on_request jan5 "msft" ∅ = (delete (toUpperCase "msft") ∅, CallProvider (toUpperCase "msft")).
Proof.
  refine (proj1 (cache_miss_calls_provider jan5 "msft" ∅ ∅ eq_refl _)).
  intros e He. rewrite lookup_empty in He. discriminate.
Defined.

Lemma after_wait_success (now : Z) (symbol : string) (data : JSON) (series : list PricePoint)
    (cache : gmap string (NodeCache.Entry (list PricePoint))) (st : Backup.State) :
  no_series data = Normal false -> transform data = Normal series ->
  fst (Server.after_wait now symbol data cache) = NodeCache.set stdTTL now symbol series cache /\
  fst (Backup.after_wait now symbol data st) =
    {| Backup.cache := NodeCache.set stdTTL now symbol series (Backup.cache st);
       Backup.apiUsage := Backup.apiUsage st |}.
Proof.
  intros Hs Ht. unfold Server.after_wait, Backup.after_wait. rewrite Hs, Ht. split; reflexivity.
Qed.



(** X3: a request that arrives more than 3600 seconds after the series
    was stored (the clock being past the epoch) finds the entry expired:
    the entry is removed and the handler goes on to the provider call. *)
Theorem fetched_series_expires (now later : Z) (raw symbol : string) (data : JSON)
    (series : list PricePoint)
    (cache : gmap string (NodeCache.Entry (list PricePoint))) (st : Backup.State) :
  toUpperCase raw = symbol -> validateStockSymbol symbol = true ->
  no_series data = Normal false -> transform data = Normal series ->
  0 <= now -> 3600 * 1000 < later - now ->
  Server.on_request later raw (fst (Server.after_wait now symbol data cache)) =
    (delete symbol cache, CallProvider symbol) /\
  Backup.on_request later raw (fst (Backup.after_wait now symbol data st)) =
    ({| Backup.cache := delete symbol (Backup.cache st);
        Backup.apiUsage := Backup.trackApiUsage later (Backup.apiUsage st) |},
     CallProvider symbol).
Proof.
  intros Hraw Hvalid Hs Ht Hepoch Hage.
  destruct (after_wait_success now symbol data series cache st Hs Ht) as [-> ->].
  unfold Server.on_request, Backup.on_request. rewrite Hraw, Hvalid.
  cbn [negb Backup.cache Backup.apiUsage].
  assert (Hget : forall c : gmap string (NodeCache.Entry (list PricePoint)),
             NodeCache.get later symbol (NodeCache.set stdTTL now symbol series c) =
             (delete symbol c, None)).
  { intros c. rewrite get_absent.
    - unfold NodeCache.set. now rewrite delete_insert_eq.
    - intros e. unfold NodeCache.set. rewrite lookup_insert_eq. intros [= <-].
      unfold NodeCache.wrap, stdTTL. cbn. lia. }
  rewrite !Hget. split; reflexivity.
Qed.

Lemma fetched_series_expires_example :
  exists series,
    transform three_days = Normal series /\
    Server.on_request (jan5 + 3600 * 1000 + 1) "aapl"
      (fst (Server.after_wait jan5 "AAPL" three_days ∅)) = (delete "AAPL" ∅, CallProvider "AAPL").
Proof.
  eassert (Ht : transform three_days = Normal _) by (vm_compute; reflexivity).
  match type of Ht with
  | _ = Normal ?series =>
      exists series; split; [exact Ht |];
      refine (proj1 (fetched_series_expires jan5 (jan5 + 3600 * 1000 + 1) "aapl" "AAPL" three_days
                       series ∅ fresh eq_refl eq_refl eq_refl Ht _ _))
  end.
  - unfold jan5. lia.
  - lia.
Defined.

(** X4: handling a request for one symbol never changes what is cached
    under another symbol, neither on arrival nor when the provider's
    response is processed. *)
Theorem other_symbols_untouched (now : Z) (raw symbol other : string) (data : JSON)
    (cache : gmap string (NodeCache.Entry (list PricePoint))) (st : Backup.State) :
  (other <> toUpperCase raw ->
     fst (Server.on_request now raw cache) !! other = cache !! other /\
     Backup.cache (fst (Backup.on_request now raw st)) !! other = Backup.cache st !! other) /\
  (other <> symbol ->
     fst (Server.after_wait now symbol data cache) !! other = cache !! other /\
     Backup.cache (fst (Backup.after_wait now symbol data st)) !! other =
       Backup.cache st !! other).
Proof.
  assert (Hget : forall (c : gmap string (NodeCache.Entry (list PricePoint))) key,
             other <> key -> fst (NodeCache.get now key c) !! other = c !! other).
  { intros c key Hne. unfold NodeCache.get.
    destruct (c !! key) as [e |]; [| reflexivity].
    destruct (NodeCache.expired now e); [| reflexivity].
    cbn. now rewrite lookup_delete_ne. }
  split; intros Hne.
  - unfold Server.on_request, Backup.on_request.
    destruct (negb (validateStockSymbol (toUpperCase raw))); [split; reflexivity |].
    split.
    + specialize (Hget cache _ Hne).
      destruct (NodeCache.get now (toUpperCase raw) cache) as [c' [series |]]; exact Hget.
    + specialize (Hget (Backup.cache st) _ Hne).
      destruct (NodeCache.get now (toUpperCase raw) (Backup.cache st)) as [c' [series |]];
        exact Hget.
  - unfold Server.after_wait, Backup.after_wait.
    destruct (no_series data) as [[|] | e]; try (split; reflexivity).
    destruct (transform data) as [series | e]; [| split; reflexivity].
    cbn. unfold NodeCache.set. split; now rewrite lookup_insert_ne.
Qed.

Lemma closing_price_date (entry : string * JSON) (p : PricePoint) :
  closing_price entry = Normal p -> date p = fst entry.
Proof.
  destruct entry as [k data]. unfold closing_price.
  destruct (get data "4. close") as [primary | e]; cbn [bind]; [| discriminate].
  destruct (if truthy_value primary then Normal primary else get data "5. adjusted close")
    as [price | e]; cbn [bind]; [| discriminate].
  destruct (parseFloat price) as [c | e]; cbn [bind]; [| discriminate].
  intros [= <-]. reflexivity.
Qed.

Lemma mapM_dates (fields : list (string * JSON)) (points : list PricePoint) :
  mapM closing_price fields = Normal points -> map date points = map fst fields.
Proof.
  revert points. induction fields as [| entry fields IH]; cbn [mapM]; intros points.
  - intros [= <-]. reflexivity.
  - destruct (closing_price entry) as [p | e] eqn:Hp; cbn [bind]; [| discriminate].
    destruct (mapM closing_price fields) as [ps | e]; cbn [bind]; [| discriminate].
    intros [= <-]. cbn. now rewrite (closing_price_date _ _ Hp), (IH ps eq_refl).
Qed.

Lemma transform_daily (top fields : list (string * JSON)) :
  assoc "Time Series (Daily)" top = Some (JObject fields) ->
  no_series (JObject top) = Normal false /\
  transform (JObject top) =
    bind (mapM closing_price fields) (fun points => Normal (sort by_date points)).
Proof.
  intros H. unfold no_series, transform, closingPrices. cbn [truthy negb get bind].
  rewrite H. cbn. split; reflexivity.
Qed.

(** X5: whenever the transformation of a daily series returns, the
    dates of the series are exactly the keys of the payload, each once:
    no day is dropped or added, whatever the entries hold. *)
Theorem transform_keeps_every_day (top fields : list (string * JSON)) (series : list PricePoint) :
  assoc "Time Series (Daily)" top = Some (JObject fields) ->
  transform (JObject top) = Normal series ->
  Permutation (map date series) (map fst fields) /\ length series = length fields.
Proof.
  intros Hdaily Ht. destruct (transform_daily top fields Hdaily) as [_ Heq].
  rewrite Heq in Ht.
  destruct (mapM closing_price fields) as [points | e] eqn:Hpoints; cbn [bind] in Ht;
    [| discriminate].
  injection Ht as <-.
  pose proof (mapM_dates fields points Hpoints) as Hdates.
  split.
  - rewrite (Permutation_map date (sort_perm by_date points)), Hdates. reflexivity.
  - rewrite (Permutation_length (sort_perm by_date points)).
    rewrite <- (length_map date points), Hdates. apply length_map.
Qed.

Lemma transform_keeps_every_day_example :
  exists series,
    transform missing_close = Normal series /\
    Permutation (map date series) ["2024-01-03"; "2024-01-02"] /\ length series = 2%nat.
Proof.
  eassert (Ht : transform missing_close = Normal _) by (vm_compute; reflexivity).
  match type of Ht with
  | _ = Normal ?series =>
      exists series; split; [exact Ht |];
      exact (transform_keeps_every_day
               [("Time Series (Daily)", JObject [
                   ("2024-01-03", JObject [("1. open", JString "186.0")]);
                   ("2024-01-02", JObject [("4. close", JString "185.6")])])]
               [("2024-01-03", JObject [("1. open", JString "186.0")]);
                ("2024-01-02", JObject [("4. close", JString "185.6")])]
               series eq_refl Ht)
  end.
Defined.

Lemma mapM_null (fields : list (string * JSON)) (k : string) :
  In (k, JNull) fields -> exists e, mapM closing_price fields = Throw e.
Proof.
  induction fields as [| entry fields IH]; [intros [] |].
  intros [-> | Hin]; cbn [mapM].
  - eexists. reflexivity.
  - destruct (closing_price entry) as [p | e]; cbn [bind]; [| eexists; reflexivity].
    destruct (IH Hin) as [e ->]. eexists. reflexivity.
Qed.

(** X6: a payload whose daily series holds [null] for some day makes
    the transformation throw; the request is answered with status 500
    and [Failed to process stock data], and nothing is cached. *)
Theorem null_entry_fails_request (now : Z) (symbol k : string) (top fields : list (string * JSON))
    (cache : gmap string (NodeCache.Entry (list PricePoint))) (st : Backup.State) :
  assoc "Time Series (Daily)" top = Some (JObject fields) ->
  In (k, JNull) fields ->
  Server.after_wait now symbol (JObject top) cache = (cache, failed now) /\
  Backup.after_wait now symbol (JObject top) st = (st, failed now).
Proof.
  intros Hdaily Hin. destruct (transform_daily top fields Hdaily) as [Hs Ht].
  destruct (mapM_null fields k Hin) as [e He]. rewrite He in Ht. cbn [bind] in Ht.
  unfold Server.after_wait, Backup.after_wait. rewrite Hs, Ht. split; reflexivity.
Qed.

Lemma null_entry_fails_request_example :
  Server.after_wait jan5 "AAPL"
    (JObject [("Time Series (Daily)", JObject [("2024-01-02", JNull)])]) ∅ = (∅, failed jan5).
Proof.
  exact (proj1 (null_entry_fails_request jan5 "AAPL" "2024-01-02"
                  [("Time Series (Daily)", JObject [("2024-01-02", JNull)])]
                  [("2024-01-02", JNull)] ∅ fresh eq_refl (or_introl eq_refl))).
Defined.

Lemma apiError_status (now : Z) (error : JSON) (code : Z) :
  status (try_catch now (apiError now error code)) = code \/
  status (try_catch now (apiError now error code)) = 500.
Proof.
  unfold apiError. destruct (error_shown error) as [shown | e]; cbn; [left | right]; reflexivity.
Qed.

Lemma fresh_response_cases (now : Z) (symbol : string) (series : list PricePoint) :
  (exists text, Server.fresh_response now symbol series = {| status := 200; body := Literal text |}
                /\ is_JSON text = true) \/
  (exists v, Server.fresh_response now symbol series = {| status := 500; body := Stringified v |}).
Proof.
  unfold Server.fresh_response, Server.build.
  destruct (Server.items_text 0 (Z.of_nat (length series)) series) as [items | e];
    cbn [bind]; [| right; eexists; reflexivity].
  unfold JSON_parse.
  destruct (is_JSON _) eqn:Hjson; cbn [bind].
  - left. eexists. split; [reflexivity | exact Hjson].
  - right. eexists. reflexivity.
Qed.

(** X7: the stock endpoint answers with status 200, 400, 404, 429 or 500
    and nothing else; an answer given on arrival has status 200 or 400;
    the earlier variant never answers 400 after a provider call; a
    provider call that rejects is answered with 500. *)
Theorem answers_have_known_status :
  (forall now raw cache r,
      snd (Server.on_request now raw cache) = Respond r -> status r = 200 \/ status r = 400) /\
  (forall now raw st r,
      snd (Backup.on_request now raw st) = Respond r -> status r = 200 \/ status r = 400) /\
  (forall now symbol data cache,
      known_status (status (snd (Server.after_wait now symbol data cache)))) /\
  (forall now symbol data st,
      known_status (status (snd (Backup.after_wait now symbol data st))) /\
      status (snd (Backup.after_wait now symbol data st)) <> 400) /\
  (forall now, status (Server.on_reject now) = 500 /\ status (Backup.on_reject now) = 500).
Proof.
  unfold known_status.
  split; [| split; [| split; [| split]]].
  - intros now raw cache r. unfold Server.on_request.
    destruct (negb _); cbn; [intros [= <-]; right; reflexivity |].
    destruct (NodeCache.get _ _ _) as [c' [series |]]; cbn; [| discriminate].
    intros [= <-]. left. reflexivity.
  - intros now raw st r. unfold Backup.on_request.
    destruct (negb _); cbn; [intros [= <-]; right; reflexivity |].
    destruct (NodeCache.get _ _ _) as [c' [series |]]; cbn; [| discriminate].
    intros [= <-]. left. reflexivity.
  - intros now symbol data cache. unfold Server.after_wait.
    destruct (no_series data) as [[|] | e]; cbn [snd]; [| | cbn; tauto].
    + unfold Server.no_series_response.
      destruct (get data "Note") as [note | e]; cbn [bind]; [| cbn; tauto].
      destruct (match note with
                | Some n => if truthy n then Server.includes_rate_limit n else Normal false
                | None => Normal false
                end) as [[|] | e]; cbn [bind]; [| | cbn; tauto].
      * destruct (apiError_status now
          (JString "Alpha Vantage API limit reached (5 requests/minute). Please wait 1 minute.") 429)
          as [-> | ->]; tauto.
      * destruct (get data "Information") as [[i |] | e]; cbn [bind]; [| cbn; tauto | cbn; tauto].
        destruct (truthy i); [| cbn; tauto].
        destruct (apiError_status now i 400) as [-> | ->]; tauto.
    + destruct (transform data) as [series | e]; cbn [snd]; [| cbn; tauto].
      destruct (fresh_response_cases now symbol series) as [(text & -> & _) | (v & ->)];
        cbn; tauto.
  - intros now symbol data st. unfold Backup.after_wait.
    destruct (no_series data) as [[|] | e]; cbn [snd]; [| | cbn; split; [tauto | lia]].
    + unfold Backup.no_series_response.
      destruct (get data "Note") as [note | e]; cbn [bind]; [| cbn; split; [tauto | lia]].
      destruct (get data "Information") as [info | e]; cbn [bind]; [| cbn; split; [tauto | lia]].
      destruct (or_else note info) as [notice |]; [| cbn; split; [tauto | lia]].
      destruct (truthy notice); [| cbn; split; [tauto | lia]].
      destruct (apiError_status now notice 429) as [-> | ->]; split; (tauto || lia).
    + destruct (transform data) as [series | e]; cbn; split; (tauto || lia).
  - intros now. split; reflexivity.
Qed.

Lemma try_catch_stringified (now : Z) (c : Completion Response) :
  (forall r, c = Normal r -> exists v, body r = Stringified v) ->
  exists v, body (try_catch now c) = Stringified v.
Proof.
  destruct c as [r | e]; cbn; [intros H; exact (H r eq_refl) | intros _; eexists; reflexivity].
Qed.

Lemma apiError_stringified (now : Z) (error : JSON) (code : Z) (r : Response) :
  apiError now error code = Normal r -> exists v, body r = Stringified v.
Proof.
  unfold apiError. destruct (error_shown error); cbn [bind]; [| discriminate].
  intros [= <-]. eexists. reflexivity.
Qed.

Lemma no_series_answer_stringified (now : Z) (data : JSON) :
  exists v, body (try_catch now (Server.no_series_response now data)) = Stringified v.
Proof.
  apply try_catch_stringified. intros r. unfold Server.no_series_response.
  destruct (get data "Note") as [note | e]; cbn [bind]; [| discriminate].
  destruct (match note with
            | Some n => if truthy n then Server.includes_rate_limit n else Normal false
            | None => Normal false
            end) as [[|] | e]; cbn [bind]; [| | discriminate].
  - apply apiError_stringified.
  - destruct (get data "Information") as [[i |] | e]; cbn [bind]; [| | discriminate].
    + destruct (truthy i); apply apiError_stringified.
    + apply apiError_stringified.
Qed.

(** X8: whenever [server.js] sends a text assembled by hand, that text
    is a JSON document and the status is 200: a text that [JSON.parse]
    refuses is never sent. *)
Theorem sent_text_is_JSON (now : Z) (symbol : string) (data : JSON) (text : string)
    (cache : gmap string (NodeCache.Entry (list PricePoint))) :
  body (snd (Server.after_wait now symbol data cache)) = Literal text ->
  is_JSON text = true /\ status (snd (Server.after_wait now symbol data cache)) = 200.
Proof.
  unfold Server.after_wait.
  destruct (no_series data) as [[|] | e]; cbn [snd]; [| | discriminate].
  - destruct (no_series_answer_stringified now data) as [v ->]. discriminate.
  - destruct (transform data) as [series | e]; cbn [snd]; [| discriminate].
    destruct (fresh_response_cases now symbol series) as [(t & -> & Hjson) | (v & ->)];
      cbn; [| discriminate].
    intros [= <-]. split; [exact Hjson | reflexivity].
Qed.

Lemma sent_text_is_JSON_example :
  exists text,
    body (snd (Server.after_wait jan5 "AAPL" three_days ∅)) = Literal text /\
    is_JSON text = true.
Proof.
  eassert (Hb : body (snd (Server.after_wait jan5 "AAPL" three_days ∅)) = Literal _)
    by (vm_compute; reflexivity).
  match type of Hb with
  | _ = Literal ?text =>
      exists text; split; [exact Hb |];
      exact (proj1 (sent_text_is_JSON jan5 "AAPL" three_days text ∅ Hb))
  end.
Defined.

Lemma items_text_stops (index length : Z) (good rest : list PricePoint) (bad : PricePoint) :
  Forall (fun p => date p <> "") good -> date bad = "" ->
  Server.items_text index length (good ++ bad :: rest) =
    Throw (Error ("Invalid price data at index "
                  +:+ digits_of (index + Z.of_nat (List.length good)) +:+ ": "
                  +:+ Server.stringify_item bad)).
Proof.
  intros Hgood Hbad. revert index.
  induction Hgood as [| p good Hp _ IH]; intros index; cbn [app Server.items_text].
  - rewrite Hbad. cbn [String.eqb orb List.length Z.of_nat]. now rewrite Z.add_0_r.
  - destruct (String.eqb_spec (date p) "") as [Heq | _]; [contradiction |].
    cbn [orb Server.typeof String.eqb Ascii.eqb Bool.eqb negb].
    rewrite IH. cbn [bind List.length].
    replace (index + 1 + Z.of_nat (List.length good))
      with (index + Z.of_nat (S (List.length good))) by lia.
    reflexivity.
Qed.

(** X9: when the first point with an empty date stands at index [i] of
    the series, [server.js] answers with status 500 and the details
    [Invalid price data at index i: ] followed by the point as JSON. *)
Theorem empty_date_reports_index (now : Z) (symbol : string)
    (good rest : list PricePoint) (bad : PricePoint) :
  Forall (fun p => date p <> "") good -> date bad = "" ->
  Server.fresh_response now symbol (good ++ bad :: rest) =
    {| status := 500;
       body := Stringified
         (JObject [("status", JString "error");
                   ("error", JString "Failed to construct valid response");
                   ("details",
                    JString ("Invalid price data at index "
                             +:+ digits_of (Z.of_nat (List.length good)) +:+ ": "
                             +:+ Server.stringify_item bad))]) |}.
Proof.
  intros Hgood Hbad. unfold Server.fresh_response, Server.build.
  rewrite (items_text_stops 0 _ good rest bad Hgood Hbad). reflexivity.
Qed.

Lemma empty_date_reports_index_example :
  Server.fresh_response jan5 "AAPL"
    ([{| date := "2024-01-02"; close := Dec false 1856 (-1) |}]
     ++ {| date := ""; close := Dec false 1 0 |} :: []) =
  {| status := 500;
     body := Stringified
       (JObject [("status", JString "error");
                 ("error", JString "Failed to construct valid response");
                 ("details",
                  JString ("Invalid price data at index " +:+ digits_of 1 +:+ ": "
                           +:+ Server.stringify_item {| date := ""; close := Dec false 1 0 |}))]) |}.
Proof.
  refine (empty_date_reports_index jan5 "AAPL"
            [{| date := "2024-01-02"; close := Dec false 1856 (-1) |}] []
            {| date := ""; close := Dec false 1 0 |} _ eq_refl).
  constructor; [discriminate | constructor].
Defined.

(** X10: a response without a daily series and without a [Note] whose
    [Information] is a non-empty text is answered with that very text as
    the error, with status 400 by [server.js] and 429 by the earlier
    variant; the cache is untouched. *)
Theorem provider_text_is_passed_on (now : Z) (symbol text : string) (data : JSON)
    (cache : gmap string (NodeCache.Entry (list PricePoint))) (st : Backup.State) :
  no_series data = Normal true ->
  get data "Note" = Normal None ->
  get data "Information" = Normal (Some (JString text)) ->
  text <> "" ->
  Server.after_wait now symbol data cache = (cache, error_response now (JString text) 400) /\
  Backup.after_wait now symbol data st = (st, error_response now (JString text) 429).
Proof.
  intros Hs Hnote Hinfo Htext.
  unfold Server.after_wait, Backup.after_wait. rewrite Hs.
  unfold Server.no_series_response, Backup.no_series_response. rewrite Hnote, Hinfo.
  cbn [bind or_else truthy_value truthy].
  destruct (String.eqb_spec text "") as [Heq | _]; [contradiction |].
  cbn. split; reflexivity.
Qed.

Lemma provider_text_is_passed_on_example :
  Server.after_wait jan5 "AAPL" information_only ∅ =
    (∅, error_response jan5
          (JString "Thank you for using Alpha Vantage! Please visit the premium page.") 400).
Proof.
  refine (proj1 (provider_text_is_passed_on jan5 "AAPL"
                   "Thank you for using Alpha Vantage! Please visit the premium page."
                   information_only ∅ fresh eq_refl eq_refl eq_refl _)).
  discriminate.
Defined.

(** ** Usage counts *)

Lemma sum_counts_insert (k n : Z) (counts : gmap Z Z) :
  counts !! k = None -> sum_counts (<[k := n]> counts) = n + sum_counts counts.
Proof.
  intros H. unfold sum_counts. rewrite map_fold_insert_L; [reflexivity | | exact H].
  intros; lia.
Qed.

Lemma sum_counts_delete (k n : Z) (counts : gmap Z Z) :
  counts !! k = Some n -> sum_counts counts = n + sum_counts (delete k counts).
Proof.
  intros H. unfold sum_counts. rewrite (map_fold_delete_L _ _ k n counts); [reflexivity | | exact H].
  intros; lia.
Qed.

Lemma sum_counts_bump (k : Z) (counts : gmap Z Z) :
  sum_counts (Backup.bump k counts) = sum_counts counts + 1.
Proof.
  unfold Backup.bump. destruct (counts !! k) as [n |] eqn:Hk; cbn [default from_option id].
  - rewrite <- insert_delete_eq, sum_counts_insert by apply lookup_delete_eq.
    rewrite (sum_counts_delete k n counts Hk). lia.
  - rewrite sum_counts_insert by exact Hk. lia.
Qed.

Lemma sum_counts_nonneg (counts : gmap Z Z) :
  map_Forall (fun _ n => 0 < n) counts -> 0 <= sum_counts counts.
Proof.
  induction counts as [| k n counts Hk IH] using map_ind; intros Hall.
  - unfold sum_counts. rewrite map_fold_empty. lia.
  - rewrite sum_counts_insert by exact Hk.
    apply map_Forall_insert in Hall as [Hn Hall]; [| exact Hk].
    specialize (IH Hall). lia.
Qed.

Lemma count_le_sum (k n : Z) (counts : gmap Z Z) :
  map_Forall (fun _ n => 0 < n) counts -> counts !! k = Some n -> 0 < n <= sum_counts counts.
Proof.
  intros Hall Hk. rewrite (sum_counts_delete k n counts Hk).
  pose proof (sum_counts_nonneg (delete k counts) (map_Forall_delete _ _ _ Hall)) as Hrest.
  pose proof (Hall k n Hk) as Hn. cbn beta in Hn. lia.
Qed.

Lemma total_daily_insert (key : string) (u : Backup.Usage) (usage : gmap string Backup.Usage) :
  usage !! key = None -> total_daily (<[key := u]> usage) = Backup.daily u + total_daily usage.
Proof.
  intros H. unfold total_daily. rewrite map_fold_insert_L; [reflexivity | | exact H].
  intros; lia.
Qed.

Lemma total_daily_delete (key : string) (u : Backup.Usage) (usage : gmap string Backup.Usage) :
  usage !! key = Some u -> total_daily usage = Backup.daily u + total_daily (delete key usage).
Proof.
  intros H. unfold total_daily.
  rewrite (map_fold_delete_L _ _ key u usage); [reflexivity | | exact H].
  intros; lia.
Qed.

Lemma total_daily_track (now : Z) (usage : gmap string Backup.Usage) :
  total_daily (Backup.trackApiUsage now usage) = total_daily usage + 1.
Proof.
  unfold Backup.trackApiUsage.
  destruct (usage !! Backup.usage_key now) as [u |] eqn:Hk; cbn [default from_option id].
  - rewrite <- insert_delete_eq, total_daily_insert by apply lookup_delete_eq.
    rewrite (total_daily_delete _ u usage Hk). cbn. lia.
  - rewrite total_daily_insert by exact Hk. cbn. lia.
Qed.

Lemma hours_range (now : Z) : 0 <= Backup.getHours now < 24.
Proof. unfold Backup.getHours, ms_per_day. Z.div_mod_to_equations. lia. Qed.

Lemma minutes_range (now : Z) : 0 <= Backup.getMinutes now < 60.
Proof. unfold Backup.getMinutes, ms_per_day. Z.div_mod_to_equations. lia. Qed.

Lemma bump_positive (lo hi k : Z) (counts : gmap Z Z) :
  lo <= k < hi ->
  map_Forall (fun k n => lo <= k < hi /\ 0 < n) counts ->
  map_Forall (fun k n => lo <= k < hi /\ 0 < n) (Backup.bump k counts).
Proof.
  intros Hk Hall. unfold Backup.bump. apply map_Forall_insert_2; [| exact Hall].
  split; [exact Hk |].
  destruct (counts !! k) as [n |] eqn:Hn; cbn [default from_option id]; [| lia].
  destruct (Hall k n Hn). lia.
Qed.

Lemma adds_up_track (now : Z) (usage : gmap string Backup.Usage) :
  map_Forall (fun _ u => adds_up u) usage ->
  map_Forall (fun _ u => adds_up u) (Backup.trackApiUsage now usage).
Proof.
  intros Hall. unfold Backup.trackApiUsage.
  set (u0 := default {| Backup.daily := 0; Backup.hourly := ∅; Backup.minutely := ∅ |}
               (usage !! Backup.usage_key now)).
  assert (Hu : 0 <= Backup.daily u0 /\
               Backup.daily u0 = sum_counts (Backup.hourly u0) /\
               Backup.daily u0 = sum_counts (Backup.minutely u0) /\
               map_Forall (fun k n => 0 <= k < 24 /\ 0 < n) (Backup.hourly u0) /\
               map_Forall (fun k n => 0 <= k < 60 /\ 0 < n) (Backup.minutely u0)).
  { subst u0. destruct (usage !! Backup.usage_key now) as [u |] eqn:Hk; cbn [default from_option id].
    - destruct (Hall _ u Hk) as (Hpos & Hrest). split; [lia | exact Hrest].
    - unfold sum_counts. cbn. rewrite !map_fold_empty.
      split; [lia | split; [reflexivity | split; [reflexivity | split; apply map_Forall_empty]]]. }
  clearbody u0. destruct Hu as (Hpos & Hh & Hm & Hhp & Hmp).
  apply map_Forall_insert_2; [| exact Hall].
  unfold adds_up. cbn [Backup.daily Backup.hourly Backup.minutely].
  rewrite !sum_counts_bump.
  split; [lia | split; [lia | split; [lia | split]]].
  - apply bump_positive; [apply hours_range | exact Hhp].
  - apply bump_positive; [apply minutes_range | exact Hmp].
Qed.

Lemma backup_on_request_usage (now : Z) (raw : string) (st : Backup.State) :
  (exists r, snd (Backup.on_request now raw st) = Respond r /\
             Backup.apiUsage (fst (Backup.on_request now raw st)) = Backup.apiUsage st) \/
  (exists symbol, snd (Backup.on_request now raw st) = CallProvider symbol /\
             Backup.apiUsage (fst (Backup.on_request now raw st)) =
               Backup.trackApiUsage now (Backup.apiUsage st)).
Proof.
  unfold Backup.on_request.
  destruct (negb _); [left; eexists; split; reflexivity |].
  destruct (NodeCache.get _ _ _) as [c' [series |]];
    [left | right]; eexists; split; reflexivity.
Qed.

Lemma backup_after_wait_usage (now : Z) (symbol : string) (data : JSON) (st : Backup.State) :
  Backup.apiUsage (fst (Backup.after_wait now symbol data st)) = Backup.apiUsage st.
Proof.
  unfold Backup.after_wait.
  destruct (no_series data) as [[|] | e]; try reflexivity.
  destruct (transform data); reflexivity.
Qed.

Lemma usage_step (w w' : World Backup.State) (now : Z) (ev : Event) :
  total_daily (Backup.apiUsage (store w)) = Z.of_nat (List.length (calls w)) /\
  map_Forall (fun _ u => adds_up u) (Backup.apiUsage (store w)) ->
  step backup w now ev = Some w' ->
  total_daily (Backup.apiUsage (store w')) = Z.of_nat (List.length (calls w')) /\
  map_Forall (fun _ u => adds_up u) (Backup.apiUsage (store w')).
Proof.
  intros [Htotal Hall] Hstep. unfold step in Hstep.
  destruct (now <? clock w); [discriminate |].
  destruct ev as [raw | id data | id | id].
  - cbn [start backup] in Hstep.
    destruct (backup_on_request_usage now raw (store w)) as [(r & Hr & Hu) | (symbol & Hr & Hu)];
      destruct (Backup.on_request now raw (store w)) as [s' started];
      cbn [fst snd] in Hr, Hu; subst started; injection Hstep as <-; cbn [store calls];
      rewrite Hu.
    + split; assumption.
    + split; [| now apply adds_up_track].
      rewrite total_daily_track, Htotal. cbn [List.length]. lia.
  - destruct (tasks w !! id) as [[symbol | symbol d armed] |]; try discriminate.
    injection Hstep as <-. split; assumption.
  - destruct (tasks w !! id) as [[symbol | symbol d armed] |]; try discriminate.
    injection Hstep as <-. split; assumption.
  - destruct (tasks w !! id) as [[symbol | symbol d armed] |]; try discriminate.
    destruct (now <? armed + delay); [discriminate |].
    cbn [resume backup] in Hstep.
    pose proof (backup_after_wait_usage now symbol d (store w)) as Hu.
    destruct (Backup.after_wait now symbol d (store w)) as [s' resp].
    injection Hstep as <-. cbn [store calls fst] in *. rewrite Hu. split; assumption.
Qed.

Lemma usage_run (events : list (Z * Event)) (w w' : World Backup.State) :
  total_daily (Backup.apiUsage (store w)) = Z.of_nat (List.length (calls w)) /\
  map_Forall (fun _ u => adds_up u) (Backup.apiUsage (store w)) ->
  run backup w events = Some w' ->
  total_daily (Backup.apiUsage (store w')) = Z.of_nat (List.length (calls w')) /\
  map_Forall (fun _ u => adds_up u) (Backup.apiUsage (store w')).
Proof.
  revert w. induction events as [| [now ev] events IH]; cbn [run]; intros w Hw Hrun.
  - now injection Hrun as <-.
  - destruct (step backup w now ev) as [w1 |] eqn:Hstep; [| discriminate].
    exact (IH w1 (usage_step w w1 now ev Hw Hstep) Hrun).
Qed.

Lemma usage_boot :
  total_daily (Backup.apiUsage (store (boot fresh))) = Z.of_nat (List.length (calls (boot fresh))) /\
  map_Forall (fun _ u => adds_up u) (Backup.apiUsage (store (boot fresh))).
Proof.
  cbn. split; [unfold total_daily; now rewrite map_fold_empty | apply map_Forall_empty].
Qed.

(** X11: in every run of the earlier variant from a fresh process, the
    daily counts of all days on record add up to the number of provider
    calls made: every call is counted once, and nothing else is
    counted. *)
Theorem usage_counts_provider_calls (events : list (Z * Event)) (w : World Backup.State) :
  run backup (boot fresh) events = Some w ->
  total_daily (Backup.apiUsage (store w)) = Z.of_nat (List.length (calls w)).
Proof.
  intros Hrun. exact (proj1 (usage_run events (boot fresh) w usage_boot Hrun)).
Qed.

Lemma usage_counts_provider_calls_example :
  exists w,
    run backup (boot fresh) two_misses = Some w /\
    List.length (calls w) = 2%nat /\
    total_daily (Backup.apiUsage (store w)) = Z.of_nat (List.length (calls w)).
Proof.
  eassert (Hrun : run backup (boot fresh) two_misses = Some _) by (vm_compute; reflexivity).
  match type of Hrun with
  | _ = Some ?w =>
      exists w; split; [exact Hrun |]; split; [reflexivity |];
      exact (usage_counts_provider_calls two_misses w Hrun)
  end.
Defined.

(** X12: in every run of the earlier variant from a fresh process, each
    day on record has a positive daily count equal to the sum of its
    hourly counts and to the sum of its minutely counts; so in the row
    the usage report shows for that day, at whatever instant it is
    asked, the hourly and minutely figures lie between 0 and the daily
    figure. *)
Theorem usage_report_adds_up (events : list (Z * Event)) (w : World Backup.State)
    (day : string) (u : Backup.Usage) (now : Z) :
  run backup (boot fresh) events = Some w ->
  Backup.apiUsage (store w) !! day = Some u ->
  adds_up u /\
  1 <= row_daily (usage_row now (day, u)) /\
  0 <= row_hourly (usage_row now (day, u)) <= row_daily (usage_row now (day, u)) /\
  0 <= row_minutely (usage_row now (day, u)) <= row_daily (usage_row now (day, u)).
Proof.
  intros Hrun Hday.
  pose proof (proj2 (usage_run events (boot fresh) w usage_boot Hrun) day u Hday) as Hu.
  cbn beta in Hu. split; [exact Hu |].
  destruct Hu as (Hpos & Hh & Hm & Hhp & Hmp). cbn [usage_row row_daily row_hourly row_minutely].
  assert (Hpos' : forall lo hi (counts : gmap Z Z),
             map_Forall (fun k n => lo <= k < hi /\ 0 < n) counts ->
             map_Forall (fun _ n => 0 < n) counts).
  { intros lo hi counts H k n Hk. exact (proj2 (H k n Hk)). }
  split; [lia |]. split.
  - destruct (Backup.hourly u !! Backup.getHours now) as [n |] eqn:Hn; cbn [default from_option id].
    + pose proof (count_le_sum _ n _ (Hpos' _ _ _ Hhp) Hn). lia.
    + lia.
  - destruct (Backup.minutely u !! Backup.getMinutes now) as [n |] eqn:Hn;
      cbn [default from_option id].
    + pose proof (count_le_sum _ n _ (Hpos' _ _ _ Hmp) Hn). lia.
    + lia.
Qed.

Lemma usage_report_adds_up_example :
  exists w u,
    run backup (boot fresh) two_misses = Some w /\
    Backup.apiUsage (store w) !! "2024-0-5" = Some u /\
    row_daily (usage_row 1704412800010 ("2024-0-5", u)) = 2 /\
    0 <= row_hourly (usage_row 1704412800010 ("2024-0-5", u))
      <= row_daily (usage_row 1704412800010 ("2024-0-5", u)).
Proof.
  eassert (Hrun : run backup (boot fresh) two_misses = Some _) by (vm_compute; reflexivity).
  match type of Hrun with
  | _ = Some ?w =>
      eassert (Hday : Backup.apiUsage (store w) !! "2024-0-5" = Some _)
        by (vm_compute; reflexivity);
      match type of Hday with
      | _ = Some ?u =>
          exists w, u; split; [exact Hrun |]; split; [exact Hday |]; split; [reflexivity |];
          exact (proj1 (proj2 (proj2 (usage_report_adds_up two_misses w "2024-0-5" u
                                        1704412800010 Hrun Hday))))
      end
  end.
Defined.

(** ** Only listed symbols *)

Lemma listed_step {St : Type} (keys : St -> gset string) (h : Handler St)
    (w w' : World St) (now : Z) (ev : Event) :
  keeps_to_list keys h -> listed_only keys w -> step h w now ev = Some w' -> listed_only keys w'.
Proof.
  intros (Kstart & Kcall & Kresume) (Hkeys & Hcalls & Htasks) Hstep.
  unfold step in Hstep. destruct (now <? clock w); [discriminate |].
  destruct ev as [raw | id data | id | id].
  - pose proof (Kstart now raw (store w)) as Hsub.
    pose proof (Kcall now raw (store w)) as Hsym.
    destruct (start h now raw (store w)) as [s' [resp | symbol]];
      cbn [fst snd] in Hsub, Hsym; injection Hstep as <-; unfold listed_only; cbn.
    + split; [exact (transitivity Hsub Hkeys) | split; assumption].
    + specialize (Hsym symbol eq_refl). split; [exact (transitivity Hsub Hkeys) | split].
      * intros c [<- | Hc]; [exact Hsym | now apply Hcalls].
      * intros id task. destruct (decide (next w = id)) as [<- | Hne].
        -- rewrite lookup_insert_eq. intros [= <-]. exact Hsym.
        -- rewrite lookup_insert_ne by exact Hne. apply Htasks.
  - destruct (tasks w !! id) as [[symbol | symbol d armed] |] eqn:Htask; try discriminate.
    injection Hstep as <-. unfold listed_only; cbn.
    split; [exact Hkeys | split; [exact Hcalls |]].
    intros id' task. destruct (decide (id = id')) as [<- | Hne].
    + rewrite lookup_insert_eq. intros [= <-]. exact (Htasks id _ Htask).
    + rewrite lookup_insert_ne by exact Hne. apply Htasks.
  - destruct (tasks w !! id) as [[symbol | symbol d armed] |] eqn:Htask; try discriminate.
    injection Hstep as <-. unfold listed_only; cbn.
    split; [exact Hkeys | split; [exact Hcalls |]].
    intros id' task Hl. apply lookup_delete_Some in Hl as [_ Hl]. exact (Htasks id' task Hl).
  - destruct (tasks w !! id) as [[symbol | symbol d armed] |] eqn:Htask; try discriminate.
    destruct (now <? armed + delay); [discriminate |].
    pose proof (Kresume now symbol d (store w)) as Hsub.
    pose proof (Htasks id _ Htask) as Hsym. cbn in Hsym.
    destruct (resume h now symbol d (store w)) as [s' resp]. cbn [fst] in Hsub.
    injection Hstep as <-. unfold listed_only; cbn.
    split; [| split; [exact Hcalls |]].
    + etransitivity; [exact Hsub |].
      apply union_least; [now apply singleton_subseteq_l | exact Hkeys].
    + intros id' task Hl. apply lookup_delete_Some in Hl as [_ Hl]. exact (Htasks id' task Hl).
Qed.

Lemma listed_run {St : Type} (keys : St -> gset string) (h : Handler St)
    (events : list (Z * Event)) (w w' : World St) :
  keeps_to_list keys h -> listed_only keys w -> run h w events = Some w' -> listed_only keys w'.
Proof.
  intros K. revert w. induction events as [| [now ev] events IH]; cbn [run]; intros w Hw Hrun.
  - now injection Hrun as <-.
  - destruct (step h w now ev) as [w1 |] eqn:Hstep; [| discriminate].
    exact (IH w1 (listed_step keys h w w1 now ev K Hw Hstep) Hrun).
Qed.

Lemma get_keys {V : Type} (now : Z) (key : string) (data : gmap string (NodeCache.Entry V)) :
  dom (fst (NodeCache.get now key data)) ⊆ dom data.
Proof.
  unfold NodeCache.get. destruct (data !! key) as [e |]; [| reflexivity].
  destruct (NodeCache.expired now e); [| reflexivity].
  cbn. rewrite dom_delete_L. apply subseteq_difference_l. reflexivity.
Qed.

Lemma server_keeps_to_list : keeps_to_list dom server.
Proof.
  split; [| split]; cbn [start resume server].
  - intros now raw cache. unfold Server.on_request.
    destruct (negb _); [reflexivity |].
    pose proof (get_keys now (toUpperCase raw) cache) as H.
    destruct (NodeCache.get _ _ _) as [c' [series |]]; exact H.
  - intros now raw cache symbol. unfold Server.on_request.
    destruct (validateStockSymbol (toUpperCase raw)) eqn:Hv; cbn [negb]; [| discriminate].
    destruct (NodeCache.get _ _ _) as [c' [series |]]; cbn; [discriminate |].
    intros [= <-]. now apply validate_spec in Hv as [_ Hv].
  - intros now symbol data cache. unfold Server.after_wait.
    destruct (no_series data) as [[|] | e]; cbn [fst]; try apply union_subseteq_r.
    destruct (transform data); cbn [fst]; [| apply union_subseteq_r].
    unfold NodeCache.set. rewrite dom_insert_L. reflexivity.
Qed.

Lemma backup_keeps_to_list : keeps_to_list (fun st => dom (Backup.cache st)) backup.
Proof.
  split; [| split]; cbn [start resume backup].
  - intros now raw st. unfold Backup.on_request.
    destruct (negb _); [reflexivity |].
    pose proof (get_keys now (toUpperCase raw) (Backup.cache st)) as H.
    destruct (NodeCache.get _ _ _) as [c' [series |]]; exact H.
  - intros now raw st symbol. unfold Backup.on_request.
    destruct (validateStockSymbol (toUpperCase raw)) eqn:Hv; cbn [negb]; [| discriminate].
    destruct (NodeCache.get _ _ _) as [c' [series |]]; cbn; [discriminate |].
    intros [= <-]. now apply validate_spec in Hv as [_ Hv].
  - intros now symbol data st. unfold Backup.after_wait.
    destruct (no_series data) as [[|] | e]; cbn [fst]; try apply union_subseteq_r.
    destruct (transform data); cbn [fst Backup.cache]; [| apply union_subseteq_r].
    unfold NodeCache.set. rewrite dom_insert_L. reflexivity.
Qed.

Lemma listed_boot {St : Type} (keys : St -> gset string) (s : St) :
  keys s = ∅ -> listed_only keys (boot s).
Proof.
  intros H. unfold listed_only, boot; cbn. rewrite H.
  split; [apply empty_subseteq | split]; [intros c [] |].
  intros id task Hl. rewrite lookup_empty in Hl. discriminate.
Qed.

Lemma size_validSymbols : size validSymbols = 10%nat.
Proof. unfold validSymbols. rewrite size_list_to_set; [reflexivity |]. apply (bool_decide_unpack _). vm_compute. exact I. Qed.

(** X13: in every run from a fresh process, in both variants, the keys
    of the cache and the symbols sent to the provider are symbols of the
    allow-list, and the cache never holds more than ten entries. *)
Theorem only_listed_symbols :
  (forall events w,
      run server (boot ∅) events = Some w ->
      dom (store w) ⊆ validSymbols /\
      (forall c, In c (calls w) -> target c ∈ validSymbols) /\
      (size (store w) <= 10)%nat) /\
  (forall events w,
      run backup (boot fresh) events = Some w ->
      dom (Backup.cache (store w)) ⊆ validSymbols /\
      (forall c, In c (calls w) -> target c ∈ validSymbols) /\
      (size (Backup.cache (store w)) <= 10)%nat).
Proof.
  split; intros events w Hrun.
  - destruct (listed_run dom server events (boot ∅) w server_keeps_to_list
                (listed_boot dom ∅ (dom_empty_L)) Hrun) as (Hkeys & Hcalls & _).
    split; [exact Hkeys | split; [exact Hcalls |]].
    rewrite <- size_dom, <- size_validSymbols. now apply subseteq_size.
  - destruct (listed_run _ backup events (boot fresh) w backup_keeps_to_list
                (listed_boot (fun st => dom (Backup.cache st)) fresh (dom_empty_L)) Hrun)
      as (Hkeys & Hcalls & _).
    split; [exact Hkeys | split; [exact Hcalls |]].
    rewrite <- size_dom, <- size_validSymbols. now apply subseteq_size.
Qed.

(** ** The text [server.js] builds by hand *)

Lemma app_nil (s : string) : EmptyString +:+ s = s.
Proof. reflexivity. Qed.

Lemma app_cons (c : ascii) (a b : string) : String c a +:+ b = String c (a +:+ b).
Proof. reflexivity. Qed.

Lemma app_assoc_string (a b c : string) : (a +:+ b) +:+ c = a +:+ (b +:+ c).
Proof.
  induction a as [| x a IH]; [reflexivity |]. rewrite !app_cons. f_equal. exact IH.
Qed.




Lemma string_body_plain (s rest : string) :
  plain s = true -> string_body (s +:+ String dquote rest) = Some rest.
Proof.
  induction s as [| c s IH]; [rewrite app_nil | rewrite app_cons]; cbn [plain string_body].
  - intros _. now rewrite Ascii.eqb_refl.
  - unfold plain_char. rewrite !andb_true_iff, !negb_true_iff, Z.leb_le.
    intros [[[Hge Hq] Hb] Hs]. rewrite Hq, Hb.
    replace (code c <? 32) with false by (symmetry; apply Z.ltb_ge; exact Hge).
    now apply IH.
Qed.

Lemma all_digits_app (a b : string) : all_digits (a +:+ b) = all_digits a && all_digits b.
Proof.
  induction a as [| c a IH]; [reflexivity |]. rewrite app_cons. cbn [all_digits].
  rewrite IH. now rewrite andb_assoc.
Qed.

Lemma span_digits_app (d rest : string) :
  all_digits d = true ->
  match rest with String c _ => is_digit c = false | EmptyString => True end ->
  span_digits (d +:+ rest) = (d, rest).
Proof.
  intros Hd Hrest. induction d as [| c d IH]; [rewrite app_nil | rewrite app_cons].
  - destruct rest as [| c r]; cbn; [reflexivity |]. now rewrite Hrest.
  - cbn in Hd. apply andb_true_iff in Hd as [Hc Hd]. cbn [span_digits].
    rewrite Hc, (IH Hd). reflexivity.
Qed.

Lemma zeros_digits (n : Z) : all_digits (zeros n) = true.
Proof. unfold zeros. induction (Z.to_nat n); cbn; [reflexivity | assumption]. Qed.

Lemma digits_fuel_digits (f : nat) (n : Z) (acc : string) :
  all_digits acc = true -> all_digits (digits_of_pos_fuel f n acc) = true.
Proof.
  revert n acc. induction f as [| f IH]; intros n acc Hacc; cbn [digits_of_pos_fuel]; [exact Hacc |].
  assert (Hd : all_digits (String (ascii_of_nat (Z.to_nat (48 + n mod 10))) acc) = true).
  { cbn [all_digits]. rewrite Hacc, andb_true_r.
    assert (H : 0 <= n mod 10 < 10) by (apply Z.mod_pos_bound; lia).
    unfold is_digit, code. rewrite nat_ascii_embedding by lia.
    apply andb_true_iff; rewrite !Z.leb_le. lia. }
  destruct (n / 10 =? 0); [exact Hd | now apply IH].
Qed.

Lemma digits_of_digits (n : Z) : all_digits (digits_of n) = true.
Proof. unfold digits_of. now apply digits_fuel_digits. Qed.

(** *** Numbers *)

Lemma fraction_exponent_end (r : string) : fraction_exponent (NL r) = Some (NL r).
Proof. reflexivity. Qed.

Lemma nonempty_digits_app (d rest : string) :
  all_digits d = true -> d <> EmptyString ->
  match rest with String c _ => is_digit c = false | EmptyString => True end ->
  nonempty_digits (d +:+ rest) = Some rest.
Proof.
  intros Hd Hne Hrest. unfold nonempty_digits. rewrite (span_digits_app d rest Hd Hrest).
  destruct d; [contradiction | reflexivity].
Qed.

Lemma fraction_exponent_exp (es r : string) :
  exponent_text es -> fraction_exponent (es +:+ NL r) = Some (NL r).
Proof.
  intros (sign & d & Hsign & Hd & Hne & ->).
  rewrite !app_assoc_string.
  destruct Hsign as [-> | ->]; rewrite !app_cons, !app_nil; unfold fraction_exponent;
    cbv beta iota; cbn [Ascii.eqb Bool.eqb orb]; apply nonempty_digits_app; auto; reflexivity.
Qed.

Lemma fraction_exponent_frac (d r : string) :
  all_digits d = true -> d <> EmptyString ->
  fraction_exponent ("." +:+ d +:+ NL r) = Some (NL r).
Proof.
  intros Hd Hne. rewrite app_cons, app_nil. unfold fraction_exponent. cbv beta iota.
  rewrite (nonempty_digits_app d (NL r) Hd Hne) by reflexivity. reflexivity.
Qed.

Lemma fraction_exponent_frac_exp (d es r : string) :
  all_digits d = true -> d <> EmptyString -> exponent_text es ->
  fraction_exponent ("." +:+ d +:+ es +:+ NL r) = Some (NL r).
Proof.
  intros Hd Hne Hes. pose proof (fraction_exponent_exp es r Hes) as Hexp.
  destruct Hes as (sign & d' & Hsign & Hd' & Hne' & ->).
  rewrite app_cons, app_nil. unfold fraction_exponent at 1. cbv beta iota.
  rewrite !app_assoc_string in *. rewrite !app_cons, !app_nil in *.
  rewrite (nonempty_digits_app d _ Hd Hne) by reflexivity.
  unfold fraction_exponent in Hexp. cbv beta iota in Hexp. exact Hexp.
Qed.

Lemma number_token_zero (neg : bool) (tail : string) :
  number_token (sign_text neg +:+ String "0" tail) = fraction_exponent tail.
Proof. destruct neg; reflexivity. Qed.

Lemma number_token_digits (neg : bool) (c : ascii) (d tail : string) :
  is_digit c = true -> c <> "0"%char -> all_digits d = true ->
  match tail with String x _ => is_digit x = false | EmptyString => True end ->
  number_token (sign_text neg +:+ String c (d +:+ tail)) = fraction_exponent tail.
Proof.
  intros Hc Hnz Hd Htail.
  assert (Hminus : c <> "-"%char) by (intros ->; discriminate).
  assert (H : number_token (String c (d +:+ tail)) = fraction_exponent tail).
  { unfold number_token.
    replace (match String c (d +:+ tail) with
             | String "-" r => r
             | _ => String c (d +:+ tail)
             end) with (String c (d +:+ tail)).
    - destruct (Ascii.eqb_spec c "0") as [-> | _]; [contradiction |].
      rewrite Hc, (span_digits_app d tail Hd Htail). reflexivity.
    - destruct c as [[] [] [] [] [] [] [] []]; try reflexivity. contradiction. }
  destruct neg; [| exact H].
  unfold sign_text. rewrite app_cons, app_nil. unfold number_token at 1. cbv beta iota.
  unfold number_token in H.
  replace (match String c (d +:+ tail) with
           | String "-" r => r
           | _ => String c (d +:+ tail)
           end) with (String c (d +:+ tail)) in H; [exact H |].
  destruct c as [[] [] [] [] [] [] [] []]; try reflexivity. contradiction.
Qed.

Lemma digits_fuel_leading (f : nat) (n : Z) (acc : string) :
  0 < n < 2 ^ Z.of_nat f ->
  exists c d, digits_of_pos_fuel f n acc = String c (d +:+ acc) /\
              is_digit c = true /\ c <> "0"%char /\ all_digits d = true.
Proof.
  revert n acc. induction f as [| f IH]; intros n acc Hn; [cbn in Hn; lia |].
  cbn [digits_of_pos_fuel].
  assert (Hmod : 0 <= n mod 10 < 10) by (apply Z.mod_pos_bound; lia).
  assert (Hch : is_digit (ascii_of_nat (Z.to_nat (48 + n mod 10))) = true).
  { unfold is_digit, code. rewrite nat_ascii_embedding by lia.
    apply andb_true_iff; rewrite !Z.leb_le. lia. }
  destruct (Z.eqb_spec (n / 10) 0) as [Hz | Hnz].
  - exists (ascii_of_nat (Z.to_nat (48 + n mod 10))), EmptyString.
    split; [reflexivity | split; [exact Hch | split; [| reflexivity]]].
    intros Heq. apply (f_equal nat_of_ascii) in Heq.
    rewrite nat_ascii_embedding in Heq by lia.
    change (nat_of_ascii "0") with 48%nat in Heq.
    assert (n mod 10 = 0) by lia. Z.div_mod_to_equations. lia.
  - destruct (IH (n / 10) (String (ascii_of_nat (Z.to_nat (48 + n mod 10))) acc))
      as (c & d & Heq & Hc & Hc0 & Hd).
    { rewrite Nat2Z.inj_succ, Z.pow_succ_r in Hn by lia. Z.div_mod_to_equations. lia. }
    exists c, (d +:+ String (ascii_of_nat (Z.to_nat (48 + n mod 10))) EmptyString).
    split; [| split; [exact Hc | split; [exact Hc0 |]]].
    + rewrite Heq, app_assoc_string. reflexivity.
    + rewrite all_digits_app, Hd. cbn [all_digits]. now rewrite Hch.
Qed.

Lemma digits_of_leading (n : Z) :
  0 < n ->
  exists c d, digits_of n = String c d /\ is_digit c = true /\ c <> "0"%char /\
              all_digits d = true.
Proof.
  intros Hn. unfold digits_of.
  destruct (digits_fuel_leading (S (Z.to_nat (Z.log2 n))) n EmptyString) as (c & d & H & Hc & H0 & Hd).
  - split; [exact Hn |]. rewrite Nat2Z.inj_succ, Z2Nat.id by apply Z.log2_nonneg.
    apply Z.log2_spec. exact Hn.
  - exists c, d. split; [| auto]. rewrite H. f_equal.
    clear. induction d as [| x d IH]; [reflexivity |]. rewrite app_cons. now f_equal.
Qed.

Lemma substring_digits (a b : nat) (s : string) :
  all_digits s = true -> all_digits (substring a b s) = true.
Proof.
  revert a b. induction s as [| c s IH]; intros a b Hs.
  - destruct a, b; reflexivity.
  - cbn in Hs. apply andb_true_iff in Hs as [Hc Hs].
    destruct a as [| a]; cbn [substring].
    + destruct b as [| b]; [reflexivity |]. cbn [all_digits]. rewrite Hc. now apply IH.
    + now apply IH.
Qed.

Lemma substring_rest_nonempty (a : nat) (s : string) :
  (a < String.length s)%nat -> substring a (String.length s - a) s <> EmptyString.
Proof.
  revert a. induction s as [| c s IH]; intros a Ha; [cbn in Ha; lia |].
  destruct a as [| a].
  - cbn. discriminate.
  - cbn [substring String.length Nat.sub]. apply IH. cbn in Ha. lia.
Qed.

Lemma take_leading (n : Z) (c : ascii) (d : string) :
  1 <= n -> take n (String c d) = String c (take (n - 1) d).
Proof.
  intros Hn. unfold take. replace (Z.to_nat n) with (S (Z.to_nat (n - 1))) by lia. reflexivity.
Qed.

Lemma take_digits (n : Z) (s : string) : all_digits s = true -> all_digits (take n s) = true.
Proof. apply substring_digits. Qed.

Lemma drop_digits (n : Z) (s : string) : all_digits s = true -> all_digits (drop n s) = true.
Proof. apply substring_digits. Qed.

Lemma drop_nonempty (n : Z) (s : string) : 0 <= n < len s -> drop n s <> EmptyString.
Proof. intros H. unfold drop. apply substring_rest_nonempty. unfold len in H. lia. Qed.

Lemma strip_zeros_positive (f : nat) (m e : Z) : 0 < m -> 0 < fst (strip_zeros f m e).
Proof.
  revert m e. induction f as [| f IH]; intros m e Hm; cbn [strip_zeros]; [exact Hm |].
  destruct ((m mod 10 =? 0) && negb (m =? 0)) eqn:H; [| exact Hm].
  apply IH. apply andb_true_iff in H as [H _]. apply Z.eqb_eq in H.
  Z.div_mod_to_equations. lia.
Qed.

Lemma normal_cases (m e : Z) :
  0 <= m -> normal m e = (0, 0) \/ 0 < fst (normal m e).
Proof.
  intros Hm. unfold normal. destruct (Z.eqb_spec m 0) as [-> | Hne]; [left; reflexivity |].
  right. apply strip_zeros_positive. lia.
Qed.

Lemma exponent_text_of (ex : Z) :
  ex <> 0 -> exponent_text ("e" +:+ ((if ex <? 0 then "-" else "+") +:+ digits_of (Z.abs ex))).
Proof.
  intros Hex. exists (if ex <? 0 then "-" else "+"), (digits_of (Z.abs ex)).
  split; [destruct (ex <? 0); auto |].
  split; [apply digits_of_digits |].
  split; [| reflexivity].
  destruct (digits_of_leading (Z.abs ex)) as (c & d & -> & _); [lia | discriminate].
Qed.

Lemma NL_not_digit (rest : string) :
  match NL rest with String x _ => is_digit x = false | EmptyString => True end.
Proof. reflexivity. Qed.

Lemma dot_not_digit (t : string) :
  match "." +:+ t with String x _ => is_digit x = false | EmptyString => True end.
Proof. reflexivity. Qed.

Lemma e_not_digit (t : string) :
  match "e" +:+ t with String x _ => is_digit x = false | EmptyString => True end.
Proof. reflexivity. Qed.

Lemma Number_toString_is_number (x : Num) : finite_close x = true -> number_text (Number_toString x).
Proof.
  destruct x as [| neg | neg m e]; try discriminate. cbn [finite_close]. intros Hm rest.
  apply Z.leb_le in Hm. unfold Number_toString.
  destruct (normal_cases m e Hm) as [-> | Hpos].
  { reflexivity. }
  destruct (normal m e) as [m' e']. cbn [fst] in Hpos.
  destruct (Z.eqb_spec m' 0) as [-> | _]; [lia |].
  destruct (digits_of_leading m' Hpos) as (c & d & Hs & Hc & Hc0 & Hd).
  pose proof (digits_of_digits m') as Hall.
  set (s := digits_of m') in *. set (k := len s). set (n := k + e').
  fold (sign_text neg). fold (NL rest).
  assert (Hk : 1 <= k) by (subst k; unfold len; rewrite Hs; cbn [String.length]; lia).
  cbv zeta.
  destruct ((k <=? n) && (n <=? 21)) eqn:C1.
  { rewrite !app_assoc_string. rewrite Hs, app_cons, <- app_assoc_string.
    rewrite (number_token_digits neg c (d +:+ zeros (n - k)) (NL rest) Hc Hc0).
    - apply fraction_exponent_end.
    - rewrite all_digits_app, Hd. apply zeros_digits.
    - apply NL_not_digit. }
  destruct ((0 <? n) && (n <=? 21)) eqn:C2.
  { apply andb_true_iff in C2 as [Hn0 Hn21]. apply Z.ltb_lt in Hn0.
    assert (Hnk : n < k).
    { destruct (Z.leb_spec k n); [| lia]. rewrite Hn21 in C1. discriminate. }
    rewrite !app_assoc_string. rewrite Hs, take_leading by lia. rewrite <- Hs.
    rewrite app_cons.
    rewrite (number_token_digits neg c (take (n - 1) d) _ Hc Hc0).
    - apply fraction_exponent_frac; [now apply drop_digits | apply drop_nonempty; lia].
    - now apply take_digits.
    - exact (dot_not_digit (drop n s +:+ NL rest)). }
  destruct ((-6 <? n) && (n <=? 0)) eqn:C3.
  { rewrite !app_assoc_string.
    change ("0." +:+ zeros (- n) +:+ s +:+ NL rest)
      with (String "0" ("." +:+ zeros (- n) +:+ s +:+ NL rest)).
    rewrite number_token_zero. rewrite <- (app_assoc_string (zeros (- n)) s).
    apply fraction_exponent_frac.
    - rewrite all_digits_app, zeros_digits. exact Hall.
    - rewrite Hs. destruct (zeros (- n)); discriminate. }
  assert (Hex : n - 1 <> 0).
  { intros H0. assert (Hn1 : n = 1) by lia.
    rewrite Hn1 in C2. cbn in C2. discriminate. }
  pose proof (exponent_text_of (n - 1) Hex) as Hes.
  set (es := (if n - 1 <? 0 then "-" else "+") +:+ digits_of (Z.abs (n - 1))) in *.
  destruct (Z.eqb_spec k 1) as [Hk1 | Hk1].
  { assert (d = EmptyString) as ->.
    { subst k. unfold len in Hk1. rewrite Hs in Hk1.
      destruct d; [reflexivity | cbn [String.length] in Hk1; lia]. }
    rewrite !app_assoc_string. rewrite Hs, app_cons, app_nil.
    rewrite <- (app_nil ("e" +:+ es +:+ NL rest)).
    rewrite (number_token_digits neg c EmptyString ("e" +:+ es +:+ NL rest) Hc Hc0 eq_refl
               (e_not_digit (es +:+ NL rest))).
    rewrite <- app_assoc_string. now apply fraction_exponent_exp. }
  { assert (Htake : take 1 s = String c EmptyString).
    { rewrite Hs, take_leading by lia. unfold take. cbn. now destruct d. }
    rewrite Htake. rewrite !app_assoc_string. rewrite app_cons, app_nil.
    rewrite <- (app_nil ("." +:+ _)).
    rewrite (number_token_digits neg c EmptyString
               ("." +:+ drop 1 s +:+ "e" +:+ es +:+ NL rest) Hc Hc0 eq_refl
               (dot_not_digit (drop 1 s +:+ "e" +:+ es +:+ NL rest))).
    rewrite <- (app_assoc_string "e" es).
    apply fraction_exponent_frac_exp.
    - now apply drop_digits.
    - apply drop_nonempty. lia.
    - exact Hes. }
Qed.

(** *** The text of the answer *)

Lemma member_step (f : nat) (s key r1 r2 r3 : string) :
  skip_ws s = String dquote (key +:+ String dquote r1) -> plain key = true ->
  skip_ws r1 = String ":" r2 -> value_token f r2 = Some r3 ->
  members (S f) s =
    match skip_ws r3 with
    | String "," r4 => members f r4
    | String "}" r4 => Some r4
    | _ => None
    end.
Proof.
  intros Hs Hkey Hr1 Hv. cbn [members]. rewrite Hs.
  rewrite Ascii.eqb_refl, (string_body_plain key r1 Hkey), Hr1. cbv beta iota.
  rewrite Hv. reflexivity.
Qed.

Lemma element_step (f : nat) (s r1 : string) :
  value_token f s = Some r1 ->
  elements (S f) s =
    match skip_ws r1 with
    | String "," r2 => elements f r2
    | String "]" r2 => Some r2
    | _ => None
    end.
Proof. intros Hv. cbn [elements]. rewrite Hv. reflexivity. Qed.

Lemma value_string (f : nat) (s v r : string) :
  skip_ws s = String dquote (v +:+ String dquote r) -> plain v = true ->
  value_token (S f) s = Some r.
Proof.
  intros Hs Hv. cbn [value_token]. rewrite Hs.
  change (Ascii.eqb dquote "{") with false. change (Ascii.eqb dquote "[") with false.
  rewrite Ascii.eqb_refl. cbv beta iota. now apply string_body_plain.
Qed.


Lemma value_object (f : nat) (s r r' : string) :
  skip_ws s = String "{" r -> skip_ws r = String dquote r' ->
  value_token (S f) s = members f r.
Proof. intros Hs Hr. cbn [value_token]. rewrite Hs. cbv beta iota. rewrite Hr. reflexivity. Qed.

Lemma value_array (f : nat) (s r r' : string) :
  skip_ws s = String "[" r -> skip_ws r = String "{" r' ->
  value_token (S f) s = elements f r.
Proof. intros Hs Hr. cbn [value_token]. rewrite Hs. cbv beta iota. rewrite Hr. reflexivity. Qed.

Lemma value_empty_array (f : nat) (s r r' : string) :
  skip_ws s = String "[" r -> skip_ws r = String "]" r' ->
  value_token (S f) s = Some r'.
Proof. intros Hs Hr. cbn [value_token]. rewrite Hs. cbv beta iota. rewrite Hr. reflexivity. Qed.

Lemma number_first (num : string) :
  number_text num ->
  exists c t, num = String c t /\ (c = "-"%char \/ is_digit c = true).
Proof.
  intros H. specialize (H EmptyString). destruct num as [| c t].
  - rewrite app_nil in H. discriminate.
  - exists c, t. split; [reflexivity |].
    destruct (Ascii.eqb_spec c "-") as [-> | Hne]; [left; reflexivity | right].
    rewrite app_cons in H. unfold number_token in H.
    replace (match String c (t +:+ String newline "") with
             | String "-" r => r
             | _ => String c (t +:+ String newline "")
             end) with (String c (t +:+ String newline "")) in H.
    + destruct (Ascii.eqb_spec c "0") as [-> | _]; [reflexivity |].
      destruct (is_digit c); [reflexivity | discriminate].
    + destruct c as [[] [] [] [] [] [] [] []]; try reflexivity. contradiction.
Qed.

Lemma value_number (f : nat) (num r : string) :
  number_text num ->
  value_token (S f) (String " " (num +:+ String newline r)) = Some (String newline r).
Proof.
  intros Hnum. pose proof (Hnum r) as Htok.
  destruct (number_first num Hnum) as (c & t & -> & Hc).
  cbn [value_token]. rewrite app_cons in *.
  assert (Hsp : is_json_space c = false).
  { destruct Hc as [-> | Hd]; [reflexivity |].
    unfold is_digit in Hd. apply andb_true_iff in Hd as [H1 H2].
    apply Z.leb_le in H1. apply Z.leb_le in H2.
    unfold is_json_space. cbv zeta.
    repeat (apply orb_false_iff; split); apply Z.eqb_neq; lia. }
  change (skip_ws (String " " (String c (t +:+ String newline r))))
    with (skip_ws (String c (t +:+ String newline r))).
  cbn [skip_ws]. rewrite Hsp.
  assert (Hne : forall x, In x ["{"; "["; dquote; "t"; "f"; "n"]%char -> Ascii.eqb c x = false).
  { intros x Hx. apply Ascii.eqb_neq. intros ->.
    destruct Hc as [Hc | Hc]; cbn in Hx;
      repeat (destruct Hx as [<- | Hx]; [discriminate |]); destruct Hx. }
  rewrite !Hne by (cbn; tauto). exact Htok.
Qed.

Lemma member_more (f : nat) (s key r1 r2 r3 r4 : string) :
  skip_ws s = String dquote (key +:+ String dquote r1) -> plain key = true ->
  skip_ws r1 = String ":" r2 -> value_token f r2 = Some r3 ->
  skip_ws r3 = String "," r4 ->
  members (S f) s = members f r4.
Proof.
  intros Hs Hkey Hr1 Hv Hr3.
  rewrite (member_step f s key r1 r2 r3 Hs Hkey Hr1 Hv), Hr3. reflexivity.
Qed.

Lemma member_last (f : nat) (s key r1 r2 r3 r4 : string) :
  skip_ws s = String dquote (key +:+ String dquote r1) -> plain key = true ->
  skip_ws r1 = String ":" r2 -> value_token f r2 = Some r3 ->
  skip_ws r3 = String "}" r4 ->
  members (S f) s = Some r4.
Proof.
  intros Hs Hkey Hr1 Hv Hr3.
  rewrite (member_step f s key r1 r2 r3 Hs Hkey Hr1 Hv), Hr3. reflexivity.
Qed.

Lemma item_is_value (f : nat) (p : PricePoint) (rest : string) :
  plain (date p) = true -> number_text (Number_toString (close p)) ->
  value_token (4 + f) (Server.item_text p +:+ rest) = Some rest.
Proof.
  intros Hdate Hnum.
  unfold Server.item_text, nl, dq. rewrite ?app_assoc_string; rewrite ?app_cons, ?app_nil.
  cbn [Nat.add].
  erewrite value_object; [| reflexivity | reflexivity].
  erewrite (member_more _ _ "date");
    [| reflexivity | reflexivity | reflexivity
     | eapply value_string; [reflexivity | exact Hdate] | reflexivity].
  erewrite (member_last _ _ "close");
    [| reflexivity | reflexivity | reflexivity
     | apply value_number; exact Hnum | reflexivity].
  reflexivity.
Qed.


Lemma string_length_app (a b : string) :
  String.length (a +:+ b) = (String.length a + String.length b)%nat.
Proof. induction a as [| c a IH]; [reflexivity |]. rewrite app_cons. cbn [String.length]. now rewrite IH. Qed.

Lemma items_text_length (items : list PricePoint) (index length : Z) (text : string) :
  Server.items_text index length items = Normal text ->
  (List.length items <= String.length text)%nat.
Proof.
  revert index text. induction items as [| p items IH]; intros index text H; [cbn; lia |].
  cbn [Server.items_text] in H.
  destruct (String.eqb (date p) "" || _); [discriminate |].
  destruct (Server.items_text (index + 1) length items) as [more |] eqn:Hmore; [| discriminate].
  cbn [bind] in H. injection H as <-. specialize (IH _ _ Hmore).
  rewrite !string_length_app. unfold Server.item_text, nl. rewrite app_cons.
  cbn [String.length List.length]. lia.
Qed.

Lemma items_text_starts (p : PricePoint) (items : list PricePoint) (index length : Z)
    (text : string) :
  Server.items_text index length (p :: items) = Normal text ->
  forall rest, exists r, skip_ws (text +:+ rest) = String "{" r.
Proof.
  cbn [Server.items_text].
  destruct (String.eqb (date p) "" || _); [discriminate |].
  destruct (Server.items_text _ _ items); [| discriminate].
  cbn [bind]. intros [= <-] rest.
  unfold Server.item_text, nl. rewrite ?app_assoc_string; rewrite ?app_cons, ?app_nil. eexists. reflexivity.
Qed.




Lemma upper_is_plain (s : string) : all_upper s = true -> plain s = true.
Proof.
  induction s as [| c s IH]; [reflexivity |]. cbn [all_upper plain].
  intros H. apply andb_true_iff in H as [Hc Hs]. rewrite (IH Hs), andb_true_r.
  unfold is_upper in Hc. apply andb_true_iff in Hc as [H1 H2].
  apply Z.leb_le in H1. apply Z.leb_le in H2.
  unfold plain_char. rewrite !andb_true_iff, !negb_true_iff. repeat split.
  - apply Z.leb_le. lia.
  - apply Ascii.eqb_neq. intros ->. change (code dquote) with 34 in *. lia.
  - apply Ascii.eqb_neq. intros ->. change (code backslash) with 92 in *. lia.
Qed.


Lemma valid_symbol_plain (symbol : string) :
  validateStockSymbol symbol = true -> plain symbol = true.
Proof.
  intros H. apply validate_spec in H as [Hformat _].
  unfold matches_format in Hformat. apply andb_true_iff in Hformat as [_ Hupper].
  now apply upper_is_plain.
Qed.





Lemma member_none (f : nat) (s key r1 r2 : string) :
  skip_ws s = String dquote (key +:+ String dquote r1) -> plain key = true ->
  skip_ws r1 = String ":" r2 -> value_token f r2 = None ->
  members (S f) s = None.
Proof.
  intros Hs Hkey Hr1 Hv. cbn [members]. rewrite Hs.
  rewrite Ascii.eqb_refl, (string_body_plain key r1 Hkey), Hr1. cbv beta iota.
  rewrite Hv. reflexivity.
Qed.

Lemma element_none (f : nat) (s : string) :
  value_token f s = None -> elements (S f) s = None.
Proof. intros Hv. cbn [elements]. rewrite Hv. reflexivity. Qed.

Lemma item_is_not_value (f : nat) (p : PricePoint) (rest : string) :
  plain (date p) = true -> not_finite (close p) = true ->
  value_token (4 + f) (Server.item_text p +:+ rest) = None.
Proof.
  intros Hdate Hclose.
  unfold Server.item_text, nl, dq. rewrite ?app_assoc_string; rewrite ?app_cons, ?app_nil.
  cbn [Nat.add].
  erewrite value_object; [| reflexivity | reflexivity].
  erewrite (member_more _ _ "date");
    [| reflexivity | reflexivity | reflexivity
     | eapply value_string; [reflexivity | exact Hdate] | reflexivity].
  eapply (member_none _ _ "close"); [reflexivity | reflexivity | reflexivity |].
  destruct (close p) as [| [] |]; [reflexivity | reflexivity | reflexivity | discriminate].
Qed.

Lemma items_are_not_elements (good : list PricePoint) (bad : PricePoint) (rest : list PricePoint) :
  Forall (fun p => well_formed p = true) good ->
  plain (date bad) = true -> not_finite (close bad) = true ->
  forall (index length : Z) (f : nat) (text tail : string),
  index + Z.of_nat (List.length (good ++ bad :: rest)) = length ->
  Server.items_text index length (good ++ bad :: rest) = Normal text ->
  elements (4 + (List.length good + S f)) (text +:+ tail) = None.
Proof.
  intros Hgood Hdate Hclose.
  induction Hgood as [| p good Hp _ IH]; intros index length f text tail Hlen Htext;
    cbn [app Server.items_text] in Htext.
  - destruct (String.eqb (date bad) "" || _); [discriminate |].
    destruct (Server.items_text _ _ rest); [| discriminate].
    cbn [bind] in Htext. injection Htext as <-.
    cbn [List.length Nat.add]. rewrite !app_assoc_string.
    apply element_none. now apply (item_is_not_value f bad).
  - destruct (String.eqb (date p) "" || _); [discriminate |].
    destruct (Server.items_text (index + 1) length (good ++ bad :: rest)) as [more |] eqn:Hmore;
      [| discriminate].
    cbn [bind] in Htext. injection Htext as <-.
    unfold well_formed in Hp.
    apply andb_true_iff in Hp as [Hp Hfin]. apply andb_true_iff in Hp as [_ Hplain].
    pose proof (Number_toString_is_number (close p) Hfin) as Hnum.
    assert (Hcomma : (index <? length - 1) = true).
    { apply Z.ltb_lt. cbn [app List.length] in Hlen. rewrite List.length_app in Hlen.
      cbn [List.length] in Hlen. lia. }
    rewrite Hcomma.
    specialize (IH (index + 1) length f more tail).
    cbn [List.length Nat.add] in IH |- *.
    rewrite !app_assoc_string.
    erewrite element_step; [| apply (item_is_value _ p); assumption].
    rewrite app_cons, app_nil.
    change (skip_ws (String "," ?r)) with (String "," r).
    cbv beta iota. apply IH; [| exact Hmore].
    cbn [app List.length] in Hlen. lia.
Qed.

Lemma text_is_not_value (now : Z) (symbol items : string)
    (good : list PricePoint) (bad : PricePoint) (rest : list PricePoint) (f : nat) :
  plain symbol = true -> Forall (fun p => well_formed p = true) good ->
  plain (date bad) = true -> not_finite (close bad) = true ->
  Server.items_text 0 (Z.of_nat (List.length (good ++ bad :: rest))) (good ++ bad :: rest) =
    Normal items ->
  value_token (11 + (List.length good + S f))
    (Server.head_text symbol +:+ items +:+
     Server.tail_text now (Z.of_nat (List.length (good ++ bad :: rest)))) = None.
Proof.
  intros Hsym Hgood Hdate Hclose Hitems.
  assert (Harray : forall tail,
    value_token (5 + (List.length good + S f)) (String " " (String "[" (items +:+ tail))) = None).
  { intros tail.
    assert (Hstart : exists r, skip_ws (items +:+ tail) = String "{" r).
    { destruct good; exact (items_text_starts _ _ _ _ _ Hitems tail). }
    destruct Hstart as [r Hr]. cbn [Nat.add].
    erewrite value_array; [| reflexivity | exact Hr].
    exact (items_are_not_elements good bad rest Hgood Hdate Hclose 0 _ f items tail
             (Z.add_0_l _) Hitems). }
  unfold Server.head_text, Server.tail_text, nl, dq. rewrite ?app_assoc_string; rewrite ?app_cons, ?app_nil.
  cbn [Nat.add] in *.
  erewrite value_object; [| reflexivity | reflexivity].
  erewrite (member_more _ _ "status");
    [| reflexivity | reflexivity | reflexivity
     | eapply (value_string _ _ "success"); reflexivity | reflexivity].
  eapply (member_none _ _ "data"); [reflexivity | reflexivity | reflexivity |].
  erewrite value_object; [| reflexivity | reflexivity].
  erewrite (member_more _ _ "symbol");
    [| reflexivity | reflexivity | reflexivity
     | eapply value_string; [reflexivity | exact Hsym] | reflexivity].
  eapply (member_none _ _ "closingPrices"); [reflexivity | reflexivity | reflexivity |].
  apply Harray.
Qed.

Lemma text_is_not_JSON (now : Z) (symbol items : string)
    (good : list PricePoint) (bad : PricePoint) (rest : list PricePoint) :
  plain symbol = true -> Forall (fun p => well_formed p = true) good ->
  plain (date bad) = true -> not_finite (close bad) = true ->
  Server.items_text 0 (Z.of_nat (List.length (good ++ bad :: rest))) (good ++ bad :: rest) =
    Normal items ->
  is_JSON (Server.head_text symbol +:+ items +:+
           Server.tail_text now (Z.of_nat (List.length (good ++ bad :: rest)))) = false.
Proof.
  intros Hsym Hgood Hdate Hclose Hitems. unfold is_JSON.
  pose proof (items_text_length _ _ _ _ Hitems) as Hlen.
  rewrite List.length_app in Hlen. cbn [List.length] in Hlen.
  set (text := Server.head_text symbol +:+ items +:+ _).
  assert (Hlong : (10 + String.length items <= String.length text)%nat).
  { subst text. rewrite !string_length_app.
    assert (10 <= String.length (Server.head_text symbol))%nat; [| lia].
    unfold Server.head_text, nl, dq. rewrite ?app_assoc_string; rewrite ?app_cons, ?app_nil. cbn [String.length]. lia. }
  replace (2 * String.length text + 2)%nat
    with (11 + (List.length good + S (2 * String.length text + 2 - 12 - List.length good)))%nat
    by lia.
  subst text.
  rewrite (text_is_not_value now symbol items good bad rest _ Hsym Hgood Hdate Hclose Hitems).
  reflexivity.
Qed.

(** X15: when the transformed series holds a point whose close is [NaN]
    or an infinity, after points that are well formed, [server.js] stores
    the whole series in the cache and answers the request with status
    500. *)
Theorem non_finite_close_is_stored_and_refused (now : Z) (symbol : string) (data : JSON)
    (good : list PricePoint) (bad : PricePoint) (rest : list PricePoint)
    (cache : gmap string (NodeCache.Entry (list PricePoint))) :
  validateStockSymbol symbol = true ->
  no_series data = Normal false -> transform data = Normal (good ++ bad :: rest)%list ->
  Forall (fun p => well_formed p = true) good ->
  plain (date bad) = true -> not_finite (close bad) = true ->
  fst (Server.after_wait now symbol data cache) =
    NodeCache.set stdTTL now symbol (good ++ bad :: rest)%list cache /\
  status (snd (Server.after_wait now symbol data cache)) = 500.
Proof.
  intros Hvalid Hs Ht Hgood Hdate Hclose.
  unfold Server.after_wait. rewrite Hs, Ht. cbn [fst snd]. split; [reflexivity |].
  unfold Server.fresh_response, Server.build. cbv zeta.
  destruct (Server.items_text 0 _ (good ++ bad :: rest)) as [items | e] eqn:Hitems;
    cbn [bind]; [| reflexivity].
  unfold JSON_parse.
  rewrite (text_is_not_JSON now symbol items good bad rest
             (valid_symbol_plain symbol Hvalid) Hgood Hdate Hclose Hitems).
  reflexivity.
Qed.

Lemma non_finite_close_is_stored_and_refused_example :
  exists good bad,
    transform missing_close = Normal (good ++ bad :: [])%list /\
    fst (Server.after_wait jan5 "AAPL" missing_close ∅) =
      NodeCache.set stdTTL jan5 "AAPL" (good ++ bad :: [])%list ∅ /\
    status (snd (Server.after_wait jan5 "AAPL" missing_close ∅)) = 500.
Proof.
  exists [{| date := "2024-01-02"; close := Dec false 1856 (-1) |}],
         {| date := "2024-01-03"; close := NaN |}.
  assert (Ht : transform missing_close =
               Normal ([{| date := "2024-01-02"; close := Dec false 1856 (-1) |}]
                       ++ {| date := "2024-01-03"; close := NaN |} :: [])%list)
    by (vm_compute; reflexivity).
  split; [exact Ht |].
  exact (non_finite_close_is_stored_and_refused jan5 "AAPL" missing_close _ _ [] ∅
           eq_refl eq_refl Ht ltac:(repeat constructor) eq_refl eq_refl).
Defined.
